(** * Care AI chat client: connection manager and summary fetcher

    A shallow embedding of the script of the chat component, which the
    repository holds in two variants:

    - [Defensive]: the copy with the connection guard, the ready-state test
      on send, the [summary_ready] push signal, the distinguished message
      for an abnormal closure and the bounded retry of the summary fetch;
    - [Baseline]: [src/App.vue], the copy without them.

    The component's reactive references and the [socket] variable are fields
    of a [World] record, together with the part of the host runtime the
    handlers talk to: the WebSocket objects, the frames handed to the
    transport, the pending HTTP requests, the pending timers and the clock.
    Handlers are computations in a state-and-exception monad over [World];
    an [async] function is cut at its [await]: the part that runs when it is
    called, and the part that runs when the awaited request settles.

    Left out, as they touch none of this state: the console, the scrolling
    of the message area, the template and the style sheet (the template's
    rules of display are used to name the states of the summary request). *)

From Stdlib Require Import String Ascii List NArith Bool Lia.
From stdpp Require Import base list strings pretty.
Import ListNotations.
Local Open Scope string_scope.
Local Open Scope list_scope.
Set Warnings "-register-all".

(** ** JavaScript values *)

Module JS.

(** Values produced by [JSON.parse], plus [undefined] (the value of a missing
    property). A string is held as the bytes of its UTF-8 encoding (a lone
    surrogate as the three bytes of its code point), so that every string of
    the runtime has one rendering here; equality is equality of the bytes,
    and the concatenations of the handlers, which all have plain ASCII text
    at the joint, are concatenations of the bytes. A number is kept as its
    canonical rendering (what [String(n)] gives); the handlers only test
    numbers for truthiness and print them. An object is kept as the list of
    its own properties, each key once. *)
Inductive jsval : Type :=
  | JUndefined
  | JNull
  | JBool (b : bool)
  | JNum (repr : string)
  | JStr (s : string)
  | JArr (items : list jsval)
  | JObj (fields : list (string * jsval)).

(** Thrown values: every exception the handlers can see is an [Error]. *)
Record JsError : Type := mkError { name : string; message : string }.

Definition Error (msg : string) : JsError := mkError "Error" msg.
Definition TypeError (msg : string) : JsError := mkError "TypeError" msg.
Definition SyntaxError (msg : string) : JsError := mkError "SyntaxError" msg.
Definition InvalidStateError (msg : string) : JsError :=
  mkError "InvalidStateError" msg.

(** ToBoolean. *)
Definition truthy (v : jsval) : bool :=
  match v with
  | JUndefined | JNull => false
  | JBool b => b
  | JNum repr => negb (String.eqb repr "0")
  | JStr s => negb (String.eqb s "")
  | JArr _ | JObj _ => true
  end.

(** [v === s] for a string [s]: only a string value can be strictly equal. *)
Definition strict_eq_str (v : jsval) (s : string) : bool :=
  match v with
  | JStr t => String.eqb t s
  | _ => false
  end.

Fixpoint assoc (k : string) (fields : list (string * jsval)) : jsval :=
  match fields with
  | [] => JUndefined
  | (k', v) :: rest => if String.eqb k' k then v else assoc k rest
  end.

(** Own property of a value that is neither [undefined] nor [null]; the keys
    the handlers read are no prototype properties, so primitives and arrays
    answer [undefined]. *)
Definition own (v : jsval) (k : string) : jsval :=
  match v with
  | JObj fields => assoc k fields
  | _ => JUndefined
  end.

Definition nullish (v : jsval) : bool :=
  match v with
  | JUndefined | JNull => true
  | _ => false
  end.

(** The message of the TypeError of a property read on [undefined] or
    [null] (the wording is the engine's). *)
Definition read_error (v : jsval) (k : string) : JsError :=
  TypeError ("Cannot read properties of "
             +:+ (match v with JNull => "null" | _ => "undefined" end)
             +:+ " (reading '" +:+ k +:+ "')").

Fixpoint has_key (k : string) (fields : list (string * jsval)) : bool :=
  match fields with
  | [] => false
  | (k', _) :: rest => String.eqb k' k || has_key k rest
  end.

(** ToString, as template literals and [new Error(x)] apply it; [None]
    stands for the TypeError of a value that has no primitive rendering. An
    object of [JSON.parse] renders through [Object.prototype.toString],
    unless it has an own [toString] property: that one is no function, and
    [valueOf] gives the object back. An array joins the renderings of its
    elements, [null] and [undefined] counting as empty. *)
Fixpoint to_string (v : jsval) : option string :=
  match v with
  | JUndefined => Some "undefined"
  | JNull => Some "null"
  | JBool true => Some "true"
  | JBool false => Some "false"
  | JNum repr => Some repr
  | JStr s => Some s
  | JArr items =>
      (fix join (l : list jsval) : option string :=
         match l with
         | [] => Some ""
         | x :: rest =>
             match (match x with
                    | JUndefined | JNull => Some ""
                    | _ => to_string x
                    end) with
             | None => None
             | Some sx =>
                 match rest with
                 | [] => Some sx
                 | _ =>
                     match join rest with
                     | None => None
                     | Some sr => Some (sx +:+ "," +:+ sr)
                     end
                 end
             end
         end) items
  | JObj fields =>
      if has_key "toString" fields then None else Some "[object Object]"
  end.

(** The TypeError of a value without primitive rendering (the wording is
    the engine's). *)
Definition conversion_error : JsError :=
  TypeError "Cannot convert object to primitive value".

(** White space, as [String.prototype.trim] strips it (the WhiteSpace and
    LineTerminator code points), by the bytes of its encoding:
    - one byte: U+0009 to U+000D and U+0020;
    - two bytes: U+00A0 (C2 A0);
    - three bytes: U+1680 (E1 9A 80), U+2000 to U+200A (E2 80 80 to
      E2 80 8A), U+2028 and U+2029 (E2 80 A8, E2 80 A9), U+202F (E2 80 AF),
      U+205F (E2 81 9F), U+3000 (E3 80 80) and U+FEFF (EF BB BF). *)
Definition ws1 (a : ascii) : bool :=
  let x := N_of_ascii a in
  ((9 <=? x) && (x <=? 13) || (x =? 32))%N.

Definition ws2 (a b : ascii) : bool :=
  ((N_of_ascii a =? 194) && (N_of_ascii b =? 160))%N.

Definition ws3 (a b c : ascii) : bool :=
  let x := N_of_ascii a in
  let y := N_of_ascii b in
  let z := N_of_ascii c in
  ((x =? 225) && (y =? 154) && (z =? 128)
   || (x =? 226) && (y =? 128)
      && ((128 <=? z) && (z <=? 138) || (z =? 168) || (z =? 169) || (z =? 175))
   || (x =? 226) && (y =? 129) && (z =? 159)
   || (x =? 227) && (y =? 128) && (z =? 128)
   || (x =? 239) && (y =? 187) && (z =? 191))%N.

(** [String.prototype.trimStart]. *)
Fixpoint trimStart (s : string) : string :=
  match s with
  | EmptyString => EmptyString
  | String a r1 =>
      if ws1 a then trimStart r1
      else
        match r1 with
        | EmptyString => s
        | String b r2 =>
            if ws2 a b then trimStart r2
            else
              match r2 with
              | EmptyString => s
              | String c r3 => if ws3 a b c then trimStart r3 else s
              end
        end
  end.

(** What the claims call an empty or white-space-only input. *)
Fixpoint whitespace_only (s : string) : bool :=
  match s with
  | EmptyString => true
  | String a r1 =>
      if ws1 a then whitespace_only r1
      else
        match r1 with
        | EmptyString => false
        | String b r2 =>
            if ws2 a b then whitespace_only r2
            else
              match r2 with
              | EmptyString => false
              | String c r3 => ws3 a b c && whitespace_only r3
              end
        end
  end.

(** [String.prototype.trimEnd]: what follows the last character that is no
    white space goes. The bytes inside a character are no start of white
    space, so the test is only ever met at the start of a character. *)
Fixpoint trimEnd (s : string) : string :=
  if whitespace_only s then EmptyString
  else
    match s with
    | EmptyString => EmptyString
    | String a rest => String a (trimEnd rest)
    end.

(** [String.prototype.trim]. *)
Definition trim (s : string) : string := trimEnd (trimStart s).

(** The white-space characters, one by one, in their encoding. *)
Definition white_space : list string :=
  map string_of_list_ascii
    (map (map ascii_of_N)
       ([[9]; [10]; [11]; [12]; [13]; [32]; [194; 160]; [225; 154; 128];
         [226; 128; 128]; [226; 128; 129]; [226; 128; 130]; [226; 128; 131];
         [226; 128; 132]; [226; 128; 133]; [226; 128; 134]; [226; 128; 135];
         [226; 128; 136]; [226; 128; 137]; [226; 128; 138]; [226; 128; 168];
         [226; 128; 169]; [226; 128; 175]; [226; 129; 159]; [227; 128; 128];
         [239; 187; 191]])%N).

End JS.
Export JS.

(** ** The component state and the host runtime *)

Inductive Severity : Type := info | error.

(** The objects pushed on [chatMessages]: [{sender: 'user', text, timestamp}],
    [{sender: 'ai', text, usage, timestamp}] and
    [{sender: 'system', text, type, timestamp}]. *)
Inductive Entry : Type :=
  | UserMsg (text : string) (timestamp : N)
  | AiMsg (text : jsval) (usage : jsval) (timestamp : N)
  | SystemMsg (text : jsval) (type : Severity) (timestamp : N).

Inductive ReadyState : Type := CONNECTING | OPEN | CLOSING | CLOSED.

(** A WebSocket object: its ready state belongs to the runtime; a handler
    slot holds [true] when the component's callback is assigned to it. *)
Record WebSocket : Type := mkWebSocket {
  url : string;
  readyState : ReadyState;
  onopen : bool;
  onmessage : bool;
  onerror : bool;
  onclose : bool
}.

Record World : Type := mkWorld {
  (* reactive references *)
  userInput : string;
  chatMessages : list Entry;
  doctorSummary : jsval;
  doctorSummaryLoading : bool;
  doctorSummaryError : string;
  userId : string;
  connectionStatus : string;
  isConnected : bool;
  (* [let socket]: null, or a reference into [sockets] *)
  socket : option nat;
  (* host runtime *)
  sockets : list WebSocket;
  outbox : list (nat * jsval);
  requests : list (string * nat);
  timers : list (N * nat);
  now : N
}.

Definition set_userInput (v : string) (w : World) : World :=
  mkWorld v (chatMessages w) (doctorSummary w) (doctorSummaryLoading w)
    (doctorSummaryError w) (userId w) (connectionStatus w) (isConnected w)
    (socket w) (sockets w) (outbox w) (requests w) (timers w) (now w).

Definition set_chatMessages (v : list Entry) (w : World) : World :=
  mkWorld (userInput w) v (doctorSummary w) (doctorSummaryLoading w)
    (doctorSummaryError w) (userId w) (connectionStatus w) (isConnected w)
    (socket w) (sockets w) (outbox w) (requests w) (timers w) (now w).

Definition set_doctorSummary (v : jsval) (w : World) : World :=
  mkWorld (userInput w) (chatMessages w) v (doctorSummaryLoading w)
    (doctorSummaryError w) (userId w) (connectionStatus w) (isConnected w)
    (socket w) (sockets w) (outbox w) (requests w) (timers w) (now w).

Definition set_doctorSummaryLoading (v : bool) (w : World) : World :=
  mkWorld (userInput w) (chatMessages w) (doctorSummary w) v
    (doctorSummaryError w) (userId w) (connectionStatus w) (isConnected w)
    (socket w) (sockets w) (outbox w) (requests w) (timers w) (now w).

Definition set_doctorSummaryError (v : string) (w : World) : World :=
  mkWorld (userInput w) (chatMessages w) (doctorSummary w)
    (doctorSummaryLoading w) v (userId w) (connectionStatus w) (isConnected w)
    (socket w) (sockets w) (outbox w) (requests w) (timers w) (now w).

Definition set_connectionStatus (v : string) (w : World) : World :=
  mkWorld (userInput w) (chatMessages w) (doctorSummary w)
    (doctorSummaryLoading w) (doctorSummaryError w) (userId w) v
    (isConnected w) (socket w) (sockets w) (outbox w) (requests w) (timers w)
    (now w).

Definition set_isConnected (v : bool) (w : World) : World :=
  mkWorld (userInput w) (chatMessages w) (doctorSummary w)
    (doctorSummaryLoading w) (doctorSummaryError w) (userId w)
    (connectionStatus w) v (socket w) (sockets w) (outbox w) (requests w)
    (timers w) (now w).

Definition set_socket (v : option nat) (w : World) : World :=
  mkWorld (userInput w) (chatMessages w) (doctorSummary w)
    (doctorSummaryLoading w) (doctorSummaryError w) (userId w)
    (connectionStatus w) (isConnected w) v (sockets w) (outbox w) (requests w)
    (timers w) (now w).

Definition set_sockets (v : list WebSocket) (w : World) : World :=
  mkWorld (userInput w) (chatMessages w) (doctorSummary w)
    (doctorSummaryLoading w) (doctorSummaryError w) (userId w)
    (connectionStatus w) (isConnected w) (socket w) v (outbox w) (requests w)
    (timers w) (now w).

Definition set_outbox (v : list (nat * jsval)) (w : World) : World :=
  mkWorld (userInput w) (chatMessages w) (doctorSummary w)
    (doctorSummaryLoading w) (doctorSummaryError w) (userId w)
    (connectionStatus w) (isConnected w) (socket w) (sockets w) v (requests w)
    (timers w) (now w).

Definition set_requests (v : list (string * nat)) (w : World) : World :=
  mkWorld (userInput w) (chatMessages w) (doctorSummary w)
    (doctorSummaryLoading w) (doctorSummaryError w) (userId w)
    (connectionStatus w) (isConnected w) (socket w) (sockets w) (outbox w) v
    (timers w) (now w).

Definition set_timers (v : list (N * nat)) (w : World) : World :=
  mkWorld (userInput w) (chatMessages w) (doctorSummary w)
    (doctorSummaryLoading w) (doctorSummaryError w) (userId w)
    (connectionStatus w) (isConnected w) (socket w) (sockets w) (outbox w)
    (requests w) v (now w).

Definition set_now (v : N) (w : World) : World :=
  mkWorld (userInput w) (chatMessages w) (doctorSummary w)
    (doctorSummaryLoading w) (doctorSummaryError w) (userId w)
    (connectionStatus w) (isConnected w) (socket w) (sockets w) (outbox w)
    (requests w) (timers w) v.

(** ** Handlers as computations *)

Inductive Completion (A : Type) : Type :=
  | Normal (a : A)
  | Throw (e : JsError).
Arguments Normal {A} a.
Arguments Throw {A} e.

Definition M (A : Type) : Type := World -> Completion A * World.

#[global] Instance M_ret : MRet M := fun A a w => (Normal a, w).

#[global] Instance M_bind : MBind M := fun A B k m w =>
  match m w with
  | (Normal a, w') => k a w'
  | (Throw e, w') => (Throw e, w')
  end.

#[global] Instance M_fmap : FMap M := fun A B f m w =>
  match m w with
  | (Normal a, w') => (Normal (f a), w')
  | (Throw e, w') => (Throw e, w')
  end.

Definition throw {A : Type} (e : JsError) : M A := fun w => (Throw e, w).

(** [try { body } catch (e) { handler e }]: the state changes made by [body]
    before it threw stay. *)
Definition try_catch {A : Type} (body : M A) (handler : JsError -> M A) : M A :=
  fun w =>
    match body w with
    | (Normal a, w') => (Normal a, w')
    | (Throw e, w') => handler e w'
    end.

Definition gets {A : Type} (f : World -> A) : M A := fun w => (Normal (f w), w).
Definition modify (f : World -> World) : M unit := fun w => (Normal tt, f w).

(** The state a handler leaves behind, whether it returned or threw. *)
Definition exec {A : Type} (m : M A) (w : World) : World := snd (m w).

(** The handler ran to its end without an uncaught exception. *)
Definition returns {A : Type} (m : M A) (w : World) : bool :=
  match fst (m w) with
  | Normal _ => true
  | Throw _ => false
  end.

(** [a && b] and [a || b] in a condition: [b] is evaluated only if needed. *)
Definition andM (a b : M bool) : M bool :=
  a ≫= fun x : bool => if x then b else mret false.
Definition orM (a b : M bool) : M bool :=
  a ≫= fun x : bool => if x then mret true else b.
Infix "&&&" := andM (at level 40, left associativity).
Infix "|||" := orM (at level 50, left associativity).

(** Property read [v.k]: a TypeError on [undefined] and [null]. *)
Definition get (v : jsval) (k : string) : M jsval :=
  if nullish v then throw (read_error v k) else mret (own v k).

(** The rendering of [v] in a template literal or in [new Error(v)]: a
    TypeError when there is none. *)
Definition ToString (v : jsval) : M string :=
  match to_string v with
  | Some s => mret s
  | None => throw conversion_error
  end.

(** ** What the handlers ask of the runtime *)

Definition Date_now : M N := gets now.

(** [scrollToBottom] defers a scroll of the message area to the next tick;
    it touches the view only, none of the state kept here. *)
Definition scrollToBottom : M unit := mret tt.

Definition push (e : Entry) : M unit :=
  modify (fun w => set_chatMessages (chatMessages w ++ [e]) w).

(** The object the [socket] variable refers to; reading a property of
    [null] throws. *)
Definition socket_object (k : string) : M (nat * WebSocket) :=
  s ← gets socket;
  match s with
  | None => throw (read_error JNull k)
  | Some i =>
      o ← gets (fun w => sockets w !! i);
      match o with
      | Some ws => mret (i, ws)
      | None => throw (read_error JUndefined k)
      end
  end.

(** [socket.readyState]. *)
Definition socket_readyState : M ReadyState :=
  '(i, ws) ← socket_object "readyState";
  mret (readyState ws).

(** [socket.send(JSON.stringify(frame))]: in state CONNECTING the call throws,
    in state OPEN the frame goes out, in the closing states it is dropped.
    The outbox keeps the frame as the object given to [JSON.stringify]. *)
Definition socket_send (frame : jsval) : M unit :=
  '(i, ws) ← socket_object "send";
  match readyState ws with
  | CONNECTING => throw (InvalidStateError "Still in CONNECTING state.")
  | OPEN => modify (fun w => set_outbox (outbox w ++ [(i, frame)]) w)
  | CLOSING | CLOSED => mret tt
  end.

(** [socket.close()]: starts the closing handshake unless it has started. *)
Definition ws_close (ws : WebSocket) : WebSocket :=
  match readyState ws with
  | CONNECTING | OPEN =>
      mkWebSocket (url ws) CLOSING (onopen ws) (onmessage ws) (onerror ws)
        (onclose ws)
  | CLOSING | CLOSED => ws
  end.

Definition socket_close : M unit :=
  '(i, ws) ← socket_object "close";
  modify (fun w => set_sockets (alter ws_close i (sockets w)) w).

(** [new WebSocket(url)]: a fresh object, connecting, no handler assigned. *)
Definition new_WebSocket (u : string) : M nat :=
  i ← gets (fun w => length (sockets w));
  modify (fun w =>
    set_sockets (sockets w ++ [mkWebSocket u CONNECTING false false false false]) w);;
  mret i.

(** An assignment [socket.k = h] to a handler slot. *)
Definition assign_handler (k : string) (f : WebSocket -> WebSocket) : M unit :=
  '(i, ws) ← socket_object k;
  modify (fun w => set_sockets (alter f i (sockets w)) w).

Definition with_onopen (b : bool) (ws : WebSocket) : WebSocket :=
  mkWebSocket (url ws) (readyState ws) b (onmessage ws) (onerror ws) (onclose ws).
Definition with_onmessage (b : bool) (ws : WebSocket) : WebSocket :=
  mkWebSocket (url ws) (readyState ws) (onopen ws) b (onerror ws) (onclose ws).
Definition with_onerror (b : bool) (ws : WebSocket) : WebSocket :=
  mkWebSocket (url ws) (readyState ws) (onopen ws) (onmessage ws) b (onclose ws).
Definition with_onclose (b : bool) (ws : WebSocket) : WebSocket :=
  mkWebSocket (url ws) (readyState ws) (onopen ws) (onmessage ws) (onerror ws) b.
Definition with_readyState (rs : ReadyState) (ws : WebSocket) : WebSocket :=
  mkWebSocket (url ws) rs (onopen ws) (onmessage ws) (onerror ws) (onclose ws).

(** What [JSON.parse] makes of a text: a value, or a SyntaxError. *)
Inductive Parsed : Type :=
  | Unparseable (msg : string)
  | Json (v : jsval).

Definition JSON_parse (p : Parsed) : M jsval :=
  match p with
  | Unparseable msg => throw (SyntaxError msg)
  | Json v => mret v
  end.

(** Events of the transport. [data] is the frame's text, given by what
    [JSON.parse] makes of it. *)
Record MessageEvent : Type := { data : Parsed }.
Record CloseEvent : Type := { code : N; reason : string }.

(** An HTTP response; [body] is what [response.json()] resolves or rejects
    with. *)
Record Response : Type := {
  status : N;
  statusText : string;
  body : Parsed
}.

Definition ok (r : Response) : bool := ((200 <=? status r) && (status r <=? 299))%N.

(** How the promise of [fetch] settles. *)
Inductive FetchOutcome : Type :=
  | Rejected (e : JsError)
  | Resolved (r : Response).

(** [fetch(url)] up to the [await]: the request is pending; [attempt] names
    the suspended call that its settling resumes. *)
Definition fetch (u : string) (attempt : nat) : M unit :=
  modify (fun w => set_requests (requests w ++ [(u, attempt)]) w).

Definition await_fetch (o : FetchOutcome) : M Response :=
  match o with
  | Rejected e => throw e
  | Resolved r => mret r
  end.

(** [await response.json()]. *)
Definition response_json (r : Response) : M jsval := JSON_parse (body r).

(** [setTimeout(() => fetchDoctorSummary(attempt), delay)]. *)
Definition setTimeout (attempt : nat) (delay : N) : M unit :=
  modify (fun w => set_timers (timers w ++ [(delay, attempt)]) w).

(** [addSystemMessage(text, type)], the same in both variants. *)
Definition addSystemMessage (text : jsval) (type : Severity) : M unit :=
  t ← Date_now;
  push (SystemMsg text type t);;
  scrollToBottom.

Definition ifM {A : Type} (c : M bool) (t e : M A) : M A :=
  c ≫= fun b : bool => if b then t else e.

(** [!socket] negated: the variable holds an object. *)
Definition socket_is_set : M bool :=
  gets (fun w => match socket w with None => false | Some _ => true end).

Definition is_OPEN (rs : ReadyState) : bool :=
  match rs with OPEN => true | _ => false end.
Definition is_CONNECTING (rs : ReadyState) : bool :=
  match rs with CONNECTING => true | _ => false end.

(** Run [handler] if the [i]-th WebSocket object has its [slot] assigned:
    the runtime fires an event on an object, and only an assigned callback
    runs. *)
Definition dispatch (i : nat) (slot : WebSocket -> bool) (handler : M unit) : M unit :=
  o ← gets (fun w => sockets w !! i);
  match o with
  | Some ws => if slot ws then handler else mret tt
  | None => mret tt
  end.

(** What can happen to the component: the user's actions, the transport's
    events on the [i]-th WebSocket object, the runtime changing a ready
    state, a timer firing, a pending request settling, time passing. *)
Inductive Event : Type :=
  | Mounted
  | Unmounted
  | Typed (text : string)
  | SendRequested
  | SummaryRequested
  | Opened (i : nat)
  | Frame (i : nat) (e : MessageEvent)
  | Failed (i : nat)
  | Closed (i : nat) (e : CloseEvent)
  | ReadyStateSet (i : nat) (rs : ReadyState)
  | TimerFired (j : nat)
  | FetchSettled (k : nat) (o : FetchOutcome)
  | ClockAdvanced (ms : N).

(** ** The defensive variant *)

Module Defensive.

Definition MAX_SUMMARY_RETRIES : nat := 3.
Definition SUMMARY_RETRY_DELAY : N := 3000.

Definition connectWebSocket : M unit :=
  ifM (socket_is_set &&&
         (rs ← socket_readyState; mret (is_OPEN rs || is_CONNECTING rs)))
    (mret tt)
    (modify (set_connectionStatus "Connecting...");;
     i ← new_WebSocket "ws://localhost:3000";
     modify (set_socket (Some i));;
     assign_handler "onopen" (with_onopen true);;
     assign_handler "onmessage" (with_onmessage true);;
     assign_handler "onerror" (with_onerror true);;
     assign_handler "onclose" (with_onclose true)).

(** [fetchDoctorSummary(retryAttempt)] from the call to the [await fetch]. *)
Definition fetchDoctorSummary (retryAttempt : nat) : M unit :=
  uid ← gets userId;
  if String.eqb uid "" then
    modify (set_doctorSummaryError "User ID is not set. Cannot fetch summary.");;
    e ← gets doctorSummaryError;
    addSystemMessage (JStr e) error
  else
    (if Nat.eqb retryAttempt 0 then
       modify (set_doctorSummaryLoading true);;
       modify (set_doctorSummary JNull);;
       modify (set_doctorSummaryError "")
     else mret tt);;
    uid' ← gets userId;
    fetch ("http://localhost:3000/chat/" +:+ uid' +:+ "/doctorsummary") retryAttempt.

(** [fetchDoctorSummary(retryAttempt)] from the settling of its request to
    its end. *)
Definition fetchDoctorSummary_resumed (retryAttempt : nat) (o : FetchOutcome) : M unit :=
  try_catch
    (response ← await_fetch o;
     if negb (ok response) then
       errorData ←
         try_catch (response_json response)
           (fun _ => mret (JObj [("message",
              JStr ("HTTP error! Status: " +:+ pretty (status response)
                    +:+ " - " +:+ statusText response))]));
       ifM (mret (N.eqb (status response) 404)
            &&& (m ← get errorData "message";
                 mret (strict_eq_str m "Doctor summary not yet available."))
            &&& mret (Nat.ltb retryAttempt MAX_SUMMARY_RETRIES))
         (addSystemMessage
            (JStr ("Summary not ready yet. Retrying in "
                   +:+ pretty (SUMMARY_RETRY_DELAY / 1000)%N
                   +:+ "s (Attempt " +:+ pretty (retryAttempt + 1)
                   +:+ "/" +:+ pretty MAX_SUMMARY_RETRIES +:+ ")..."))
            info;;
          setTimeout (retryAttempt + 1) SUMMARY_RETRY_DELAY)
         (m ← get errorData "message";
          msg ← (if truthy m then ToString m
                 else mret ("Failed to fetch summary. Status: "
                            +:+ pretty (status response)));
          throw (Error msg))
     else
       fetchedSummary ← response_json response;
       ifM (mret (truthy fetchedSummary)
            &&& (e ← get fetchedSummary "error"; mret (truthy e)))
         (e ← get fetchedSummary "error";
          s ← ToString e;
          modify (set_doctorSummaryError
                    ("Server-side summary generation issue: " +:+ s));;
          msg ← gets doctorSummaryError;
          addSystemMessage (JStr msg) error;;
          modify (set_doctorSummary JNull))
         (modify (set_doctorSummary fetchedSummary);;
          addSystemMessage (JStr "Doctor summary loaded successfully.") info;;
          modify (set_doctorSummaryError ""));;
       modify (set_doctorSummaryLoading false))
    (fun err =>
       modify (set_doctorSummaryError (message err));;
       addSystemMessage (JStr ("Error fetching summary: " +:+ message err)) error;;
       modify (set_doctorSummaryLoading false)).

Definition socket_onopen : M unit :=
  modify (set_isConnected true);;
  modify (set_connectionStatus "Connected");;
  addSystemMessage (JStr "Connection established with Care AI.") info;;
  uid ← gets userId;
  socket_send (JObj [("type", JStr "init_connection"); ("userId", JStr uid)]).

Definition socket_onmessage (event : MessageEvent) : M unit :=
  try_catch
    (messageData ← JSON_parse (data event);
     ifM ((ty ← get messageData "type"; mret (strict_eq_str ty "ai_response"))
          &&& (p ← get messageData "payload"; mret (truthy p)))
       (payload ← get messageData "payload";
        text ← get payload "text";
        usage ← get payload "usage";
        t ← Date_now;
        push (AiMsg (if truthy text then text
                     else JStr "AI response did not contain text.") usage t))
       (ifM (ty ← get messageData "type"; mret (strict_eq_str ty "system_message"))
          (text ← get messageData "text";
           addSystemMessage text info)
          (ifM (ty ← get messageData "type"; mret (strict_eq_str ty "error"))
             (m ← get messageData "message";
              s ← ToString m;
              addSystemMessage (JStr ("Server Error: " +:+ s)) error)
             (ifM ((ty ← get messageData "type";
                    mret (strict_eq_str ty "summary_ready"))
                   &&& (u ← get messageData "userId";
                        uid ← gets userId;
                        mret (strict_eq_str u uid)))
                (addSystemMessage
                   (JStr "Doctor summary is now ready to be fetched!") info;;
                 fetchDoctorSummary 0)
                (mret tt))));;
     scrollToBottom)
    (fun _ =>
       addSystemMessage
         (JStr "Received an unparseable message from the server.") error).

Definition socket_onerror : M unit :=
  modify (set_isConnected false);;
  modify (set_connectionStatus "Connection Error");;
  addSystemMessage
    (JStr "WebSocket connection error. Please check server and refresh.") error.

Definition socket_onclose (event : CloseEvent) : M unit :=
  modify (set_isConnected false);;
  modify (set_connectionStatus
            ("Disconnected (Code: " +:+ pretty (code event) +:+ ")"));;
  let closeReason :=
    if String.eqb (reason event) "" then "Connection closed." else reason event in
  let closeReason :=
    if N.eqb (code event) 1006
    then "Connection lost abnormally. Please check server status."
    else closeReason in
  addSystemMessage (JStr closeReason) error;;
  modify (set_socket None).

Definition sendMessage : M unit :=
  ifM (gets (fun w => String.eqb (trim (userInput w)) "")
       ||| (negb <$> socket_is_set)
       ||| gets (fun w => negb (isConnected w))
       ||| (rs ← socket_readyState; mret (negb (is_OPEN rs))))
    (addSystemMessage
       (JStr "Cannot send message. Not connected or input is empty.") error;;
     ifM (gets (fun w => negb (isConnected w))
          ||| socket_is_set
              &&& (rs ← socket_readyState; mret (negb (is_OPEN rs))))
       connectWebSocket
       (mret tt))
    (uid ← gets userId;
     input ← gets userInput;
     socket_send (JObj [("type", JStr "chat_message"); ("userId", JStr uid);
                        ("message", JStr input)]);;
     text ← gets userInput;
     t ← Date_now;
     push (UserMsg text t);;
     modify (set_userInput "");;
     scrollToBottom).

Definition onMounted : M unit := connectWebSocket.

Definition onUnmounted : M unit :=
  ifM socket_is_set
    (assign_handler "onopen" (with_onopen false);;
     assign_handler "onmessage" (with_onmessage false);;
     assign_handler "onerror" (with_onerror false);;
     assign_handler "onclose" (with_onclose false);;
     ifM (rs ← socket_readyState; mret (is_OPEN rs || is_CONNECTING rs))
       socket_close
       (mret tt);;
     modify (set_socket None))
    (mret tt).

(** One turn of the event loop. *)
Definition react (ev : Event) : M unit :=
  match ev with
  | Mounted => onMounted
  | Unmounted => onUnmounted
  | Typed text => modify (set_userInput text)
  | SendRequested => sendMessage
  | SummaryRequested => fetchDoctorSummary 0
  | Opened i => dispatch i onopen socket_onopen
  | Frame i e => dispatch i onmessage (socket_onmessage e)
  | Failed i => dispatch i onerror socket_onerror
  | Closed i e => dispatch i onclose (socket_onclose e)
  | ReadyStateSet i rs =>
      modify (fun w => set_sockets (alter (with_readyState rs) i (sockets w)) w)
  | TimerFired j =>
      t ← gets (fun w => timers w !! j);
      match t with
      | Some (_, attempt) =>
          modify (fun w => set_timers (delete j (timers w)) w);;
          fetchDoctorSummary attempt
      | None => mret tt
      end
  | FetchSettled k o =>
      r ← gets (fun w => requests w !! k);
      match r with
      | Some (_, attempt) =>
          modify (fun w => set_requests (delete k (requests w)) w);;
          fetchDoctorSummary_resumed attempt o
      | None => mret tt
      end
  | ClockAdvanced ms => modify (fun w => set_now (now w + ms)%N w)
  end.

Definition step (ev : Event) (w : World) : World := exec (react ev) w.

Definition run (evs : list Event) (w : World) : World :=
  fold_left (fun w ev => step ev w) evs w.

End Defensive.

(** ** The baseline variant, [src/App.vue] *)

Module Baseline.

Definition connectWebSocket : M unit :=
  modify (set_connectionStatus "Connecting...");;
  i ← new_WebSocket "ws://localhost:3000";
  modify (set_socket (Some i));;
  assign_handler "onopen" (with_onopen true);;
  assign_handler "onmessage" (with_onmessage true);;
  assign_handler "onerror" (with_onerror true);;
  assign_handler "onclose" (with_onclose true).

(** [fetchDoctorSummary()] from the call to the [await fetch]. *)
Definition fetchDoctorSummary : M unit :=
  uid ← gets userId;
  if String.eqb uid "" then
    modify (set_doctorSummaryError "User ID is not set.")
  else
    modify (set_doctorSummaryLoading true);;
    modify (set_doctorSummary JNull);;
    modify (set_doctorSummaryError "");;
    uid' ← gets userId;
    fetch ("http://localhost:3000/chat/" +:+ uid' +:+ "/doctorsummary") 0.

(** [fetchDoctorSummary()] from the settling of its request to its end; the
    [finally] block runs on both ways out of the [try]. *)
Definition fetchDoctorSummary_resumed (o : FetchOutcome) : M unit :=
  try_catch
    (response ← await_fetch o;
     (if negb (ok response) then
        errorData ←
          try_catch (response_json response)
            (fun _ => mret (JObj [("message",
               JStr ("HTTP error! Status: " +:+ pretty (status response)))]));
        m ← get errorData "message";
        msg ← (if truthy m then ToString m
               else mret ("Failed to fetch summary with status: "
                          +:+ pretty (status response)));
        throw (Error msg)
      else mret tt);;
     fetchedSummary ← response_json response;
     modify (set_doctorSummary fetchedSummary))
    (fun err => modify (set_doctorSummaryError (message err)));;
  modify (set_doctorSummaryLoading false).

Definition socket_onopen : M unit :=
  modify (set_isConnected true);;
  modify (set_connectionStatus "Connected");;
  addSystemMessage (JStr "Connection established with Care AI.") info;;
  uid ← gets userId;
  socket_send (JObj [("type", JStr "init_connection"); ("userId", JStr uid)]).

Definition socket_onmessage (event : MessageEvent) : M unit :=
  try_catch
    (messageData ← JSON_parse (data event);
     ifM ((ty ← get messageData "type"; mret (strict_eq_str ty "ai_response"))
          &&& (p ← get messageData "payload"; mret (truthy p)))
       (payload ← get messageData "payload";
        text ← get payload "text";
        usage ← get payload "usage";
        t ← Date_now;
        push (AiMsg (if truthy text then text
                     else JStr "AI didn't send text.") usage t))
       (ifM (ty ← get messageData "type"; mret (strict_eq_str ty "system_message"))
          (text ← get messageData "text";
           addSystemMessage text info)
          (ifM (ty ← get messageData "type"; mret (strict_eq_str ty "error"))
             (m ← get messageData "message";
              s ← ToString m;
              addSystemMessage (JStr ("Server Error: " +:+ s)) error)
             (mret tt)));;
     scrollToBottom)
    (fun _ =>
       addSystemMessage
         (JStr "Received an unparseable message from the server.") error).

Definition socket_onerror : M unit :=
  modify (set_isConnected false);;
  modify (set_connectionStatus "Error");;
  addSystemMessage
    (JStr "WebSocket connection error. Please try refreshing.") error.

Definition socket_onclose (event : CloseEvent) : M unit :=
  modify (set_isConnected false);;
  modify (set_connectionStatus
            ("Disconnected (Code: " +:+ pretty (code event) +:+ ")"));;
  addSystemMessage (JStr ("Connection closed. " +:+ reason event)) error.

Definition sendMessage : M unit :=
  ifM (gets (fun w => String.eqb (trim (userInput w)) "")
       ||| (negb <$> socket_is_set)
       ||| gets (fun w => negb (isConnected w)))
    (addSystemMessage
       (JStr "Cannot send message. Not connected or input is empty.") error)
    (uid ← gets userId;
     input ← gets userInput;
     socket_send (JObj [("type", JStr "chat_message"); ("userId", JStr uid);
                        ("message", JStr input)]);;
     text ← gets userInput;
     t ← Date_now;
     push (UserMsg text t);;
     modify (set_userInput "");;
     scrollToBottom).

Definition onMounted : M unit := connectWebSocket.

Definition onUnmounted : M unit :=
  ifM socket_is_set
    (assign_handler "onopen" (with_onopen false);;
     assign_handler "onmessage" (with_onmessage false);;
     assign_handler "onerror" (with_onerror false);;
     assign_handler "onclose" (with_onclose false);;
     socket_close)
    (mret tt).

(** One turn of the event loop; this variant sets no timer. *)
Definition react (ev : Event) : M unit :=
  match ev with
  | Mounted => onMounted
  | Unmounted => onUnmounted
  | Typed text => modify (set_userInput text)
  | SendRequested => sendMessage
  | SummaryRequested => fetchDoctorSummary
  | Opened i => dispatch i onopen socket_onopen
  | Frame i e => dispatch i onmessage (socket_onmessage e)
  | Failed i => dispatch i onerror socket_onerror
  | Closed i e => dispatch i onclose (socket_onclose e)
  | ReadyStateSet i rs =>
      modify (fun w => set_sockets (alter (with_readyState rs) i (sockets w)) w)
  | TimerFired _ => mret tt
  | FetchSettled k o =>
      r ← gets (fun w => requests w !! k);
      match r with
      | Some _ =>
          modify (fun w => set_requests (delete k (requests w)) w);;
          fetchDoctorSummary_resumed o
      | None => mret tt
      end
  | ClockAdvanced ms => modify (fun w => set_now (now w + ms)%N w)
  end.

Definition step (ev : Event) (w : World) : World := exec (react ev) w.

Definition run (evs : list Event) (w : World) : World :=
  fold_left (fun w ev => step ev w) evs w.

End Baseline.

(** The component as created: no message, no summary, no socket; [uid] is the
    generated session identity. *)
Definition initial (uid : string) : World :=
  mkWorld "" [] JNull false "" uid "Disconnected" false None [] [] [] [] 0.

(** ** Notions the specification speaks of *)

(** The [socket] variable, when set, refers to an existing object. *)
Definition well_formed (w : World) : bool :=
  match socket w with
  | None => true
  | Some i => Nat.ltb i (length (sockets w))
  end.

(** The transport behind the [socket] variable is open. *)
Definition transport_open (w : World) : bool :=
  match socket w with
  | None => false
  | Some i =>
      match sockets w !! i with
      | Some ws => is_OPEN (readyState ws)
      | None => false
      end
  end.

(** A connection is open or in progress. *)
Definition transport_busy (w : World) : bool :=
  match socket w with
  | None => false
  | Some i =>
      match sockets w !! i with
      | Some ws => is_OPEN (readyState ws) || is_CONNECTING (readyState ws)
      | None => false
      end
  end.

(** The frame [{type: 'chat_message', userId, message}]. *)
Definition chat_message (uid text : string) : jsval :=
  JObj [("type", JStr "chat_message"); ("userId", JStr uid); ("message", JStr text)].

Definition fresh_socket : WebSocket :=
  mkWebSocket "ws://localhost:3000" CONNECTING true true true true.

(** The state of the summary request, as the template of the defensive
    variant shows it: the loading label while the flag is set, else the
    error panel if there is an error, else the summary panel if there is a
    summary. *)
Inductive SummaryState : Type :=
  | Idle
  | Loading
  | Ready (document : jsval)
  | FailedWith (msg : string).

Definition summary_state (w : World) : SummaryState :=
  if doctorSummaryLoading w then Loading
  else if negb (String.eqb (doctorSummaryError w) "") then
    FailedWith (doctorSummaryError w)
  else if truthy (doctorSummary w) then Ready (doctorSummary w)
  else Idle.

(** The not-ready answer of the summary resource: status 404 and a body
    whose [message] is the agreed sentence. *)
Definition not_ready (o : FetchOutcome) : bool :=
  match o with
  | Resolved r =>
      N.eqb (status r) 404
      && match body r with
         | Json v =>
             negb (nullish v)
             && strict_eq_str (own v "message") "Doctor summary not yet available."
         | Unparseable _ => false
         end
  | Rejected _ => false
  end.

(** A successful answer whose body carries an error indicator. *)
Definition error_body (r : Response) (v : jsval) : Prop :=
  ok r = true /\ body r = Json v /\ truthy (own v "error") = true.

(** What is seen of one summary fetch left to itself: whether it came to an
    end, how many answers it consumed, the delays of the timers it waited
    for, the states in which it was still under way, and the state at its
    end. *)
Record Observation : Type := {
  settled : bool;
  calls : nat;
  waits : list N;
  under_way : list World;
  final : World
}.

(** The event loop serving one fetch: [k] and [j] are the places of its
    pending request and of its pending timer; the [n]-th request is answered
    by [server n]; a timer fires once its delay has passed. *)
Fixpoint drive (fuel : nat) (server : nat -> FetchOutcome) (k j n : nat)
    (w : World) : Observation :=
  match fuel with
  | 0 => Build_Observation false 0 [] [] w
  | S fuel' =>
      match requests w !! k, timers w !! j with
      | Some _, _ =>
          let o := drive fuel' server k j (S n)
                     (Defensive.step (FetchSettled k (server n)) w) in
          Build_Observation (settled o) (S (calls o)) (waits o)
            (w :: under_way o) (final o)
      | None, Some (delay, _) =>
          let o := drive fuel' server k j n
                     (Defensive.step (TimerFired j)
                        (Defensive.step (ClockAdvanced delay) w)) in
          Build_Observation (settled o) (calls o) (delay :: waits o)
            (w :: under_way o) (final o)
      | None, None => Build_Observation true 0 [] [] w
      end
  end.

(** A fetch asked for by the user in [w], then served alone. *)
Definition lone_fetch (fuel : nat) (server : nat -> FetchOutcome) (w : World) :
    Observation :=
  drive fuel server (length (requests w)) (length (timers w)) 0
    (Defensive.step SummaryRequested w).

(** Frames given one after the other to a message handler. *)
Definition deliver (handler : MessageEvent -> M unit)
    (frames : list MessageEvent) (w : World) : World :=
  fold_left (fun w e => exec (handler e) w) frames w.

Fixpoint count {A : Type} (p : A -> bool) (l : list A) : nat :=
  match l with
  | [] => 0
  | x :: rest => (if p x then 1 else 0) + count p rest
  end.

(** The frame does not parse to a value with properties. *)
Definition unreadable (e : MessageEvent) : bool :=
  match data e with
  | Unparseable _ => true
  | Json v => nullish v
  end.

Definition field (e : MessageEvent) (k : string) : jsval :=
  match data e with
  | Unparseable _ => JUndefined
  | Json v => own v k
  end.

Definition has_tag (e : MessageEvent) (t : string) : bool :=
  strict_eq_str (field e "type") t.

(** The frame carries one of the four type tags. *)
Definition recognized (e : MessageEvent) : bool :=
  has_tag e "ai_response" || has_tag e "system_message" || has_tag e "error"
  || has_tag e "summary_ready".

(** The frames that make the defensive handler append an entry: a tag alone
    is not enough for [ai_response] (a payload is needed) nor for
    [summary_ready] (the session identity must match). *)
Definition dispatched (uid : string) (e : MessageEvent) : bool :=
  has_tag e "ai_response" && truthy (field e "payload")
  || has_tag e "system_message"
  || has_tag e "error"
  || has_tag e "summary_ready" && strict_eq_str (field e "userId") uid.

(** The same for the baseline handler, which knows three tags. *)
Definition dispatched_baseline (e : MessageEvent) : bool :=
  has_tag e "ai_response" && truthy (field e "payload")
  || has_tag e "system_message"
  || has_tag e "error".

Definition is_error_notice (e : Entry) : bool :=
  match e with
  | SystemMsg _ error _ => true
  | _ => false
  end.

(** ** Notions used by the statements *)

(** A relation between the state before and the state after that every
    computation step keeps. *)
Definition preserves {A : Type} (R : World -> World -> Prop) (m : M A) : Prop :=
  forall w, R w (snd (m w)).

(** The transcript only grows. *)
Definition grows (w w' : World) : Prop :=
  chatMessages w `prefix_of` chatMessages w'.

Definition same_identity (w w' : World) : Prop := userId w' = userId w.

Definition stays_well_formed (w w' : World) : Prop :=
  well_formed w = true -> well_formed w' = true.

(** No transport is created. *)
Definition same_transports (w w' : World) : Prop :=
  length (sockets w') = length (sockets w).

Definition unparseable_notice (t : N) : Entry :=
  SystemMsg (JStr "Received an unparseable message from the server.") error t.

Definition abnormal_closure_notice (t : N) : Entry :=
  SystemMsg (JStr "Connection lost abnormally. Please check server status.")
    error t.

Definition cannot_send_notice (t : N) : Entry :=
  SystemMsg (JStr "Cannot send message. Not connected or input is empty.") error t.

(** The state after a connection attempt: the status says so, a fresh
    transport with the four callbacks exists, and [socket] refers to it. *)
Definition connecting (w : World) : World :=
  set_sockets (sockets w ++ [fresh_socket])
    (set_socket (Some (length (sockets w)))
       (set_connectionStatus "Connecting..." w)).

(** The outcome of a refused send: one error notice; no frame, no user
    entry, the input as it was. *)
Definition refused (w d : World) : Prop :=
  chatMessages d = chatMessages w ++ [cannot_send_notice (now w)]
  /\ outbox d = outbox w
  /\ userInput d = userInput w.

(** The outcome of a send that went out: one frame on the socket, one user
    entry with the text, the input cleared. *)
Definition sent (w d : World) : Prop :=
  exists i, socket w = Some i
  /\ outbox d = outbox w ++ [(i, chat_message (userId w) (userInput w))]
  /\ chatMessages d = chatMessages w ++ [UserMsg (userInput w) (now w)]
  /\ userInput d = "".

Definition summary_url (uid : string) : string :=
  "http://localhost:3000/chat/" +:+ uid +:+ "/doctorsummary".

(** What the first call of a fetch does to the summary state. *)
Definition begin_loading (w : World) : World :=
  set_doctorSummaryError "" (set_doctorSummary JNull (set_doctorSummaryLoading true w)).

Definition retry_notice (attempt : nat) (t : N) : Entry :=
  SystemMsg
    (JStr ("Summary not ready yet. Retrying in 3s (Attempt "
           +:+ pretty (attempt + 1) +:+ "/3)...")) info t.

Definition not_yet : string := "Doctor summary not yet available.".

(** The document of an answer that is taken as the summary: the response
    is successful, its body parses, and the body is falsy or has no truthy
    [error] field. Every other answer is a failure, or the not-ready one. *)
Definition document_of (o : FetchOutcome) : option jsval :=
  match o with
  | Rejected _ => None
  | Resolved r =>
      if ok r then
        match body r with
        | Unparseable _ => None
        | Json v => if truthy v && truthy (own v "error") then None else Some v
        end
      else None
  end.

Definition loaded_notice (t : N) : Entry :=
  SystemMsg (JStr "Doctor summary loaded successfully.") info t.

(** The state [d] at the end of a fetch whose last answer was [o]: the
    loading flag is down, and either the answer's document is the summary,
    the error is empty and the last entry of the transcript is the notice of
    success; or the summary is null and the last entry of the transcript is
    an error notice made of the error message. *)
Definition settled_as (o : FetchOutcome) (d : World) : Prop :=
  doctorSummaryLoading d = false
  /\ match document_of o with
     | Some v =>
         doctorSummary d = v /\ doctorSummaryError d = ""
         /\ (exists before t, chatMessages d = before ++ [loaded_notice t])
         /\ summary_state d = (if truthy v then Ready v else Idle)
     | None =>
         doctorSummary d = JNull
         /\ (exists before t,
               chatMessages d =
                 before ++ [SystemMsg (JStr (doctorSummaryError d)) error t]
               \/ chatMessages d =
                    before
                    ++ [SystemMsg
                          (JStr ("Error fetching summary: " +:+ doctorSummaryError d))
                          error t])
         /\ summary_state d =
            (if String.eqb (doctorSummaryError d) "" then Idle
             else FailedWith (doctorSummaryError d))
     end.

(** The shape of a failed fetch: the queues as they were, the loading flag
    down, the summary null or untouched, one error notice made of the error
    message. *)
Definition failed_on (w d : World) : Prop :=
  requests d = requests w /\ timers d = timers w
  /\ doctorSummaryLoading d = false
  /\ (doctorSummary d = JNull \/ doctorSummary d = doctorSummary w)
  /\ (chatMessages d =
        chatMessages w ++ [SystemMsg (JStr (doctorSummaryError d)) error (now w)]
      \/ chatMessages d =
           chatMessages w
           ++ [SystemMsg (JStr ("Error fetching summary: " +:+ doctorSummaryError d))
                 error (now w)]).

(** A fetch under way whose request for attempt [a] is pending at place [k],
    its timer place [j] being free. *)
Definition pending (k j a : nat) (w : World) : Prop :=
  userId w <> ""
  /\ (exists rs u, requests w = rs ++ [(u, a)] /\ length rs = k)
  /\ length (timers w) = j
  /\ doctorSummaryLoading w = true
  /\ doctorSummary w = JNull.

(** ** Sample inputs *)

Definition session : string := "vue_user_ab12cd".

Definition ai_response_without_payload : MessageEvent :=
  {| data := Json (JObj [("type", JStr "ai_response")]) |}.

Definition system_message_hello : MessageEvent :=
  {| data := Json (JObj [("type", JStr "system_message"); ("text", JStr "hello")]) |}.

Definition garbled_frame : MessageEvent :=
  {| data := Unparseable "Unexpected end of JSON input" |}.

Definition abnormal_close : CloseEvent :=
  {| code := 1006; reason := "server restart" |}.

Definition not_ready_response : FetchOutcome :=
  Resolved {| status := 404; statusText := "Not Found";
              body := Json (JObj [("message", JStr "Doctor summary not yet available.")]) |}.

Definition summary_document : jsval :=
  JObj [("summary", JStr "Patient reports a mild headache.")].

Definition summary_response : FetchOutcome :=
  Resolved {| status := 200; statusText := "OK"; body := Json summary_document |}.

Definition error_document : jsval :=
  JObj [("error", JStr "model overloaded")].

Definition error_response : Response :=
  {| status := 200; statusText := "OK"; body := Json error_document |}.

(** The baseline component, connected. *)
Definition connected_world : World :=
  Baseline.run [Mounted; ReadyStateSet 0 OPEN; Opened 0] (initial session).

(** The defensive component, connected, with a text typed. *)
Definition typed_world : World :=
  Defensive.run [Mounted; ReadyStateSet 0 OPEN; Opened 0; Typed "hello"]
    (initial session).

(** The baseline component, connected, with a text typed, while the
    transport is closing: the runtime has left the open state and the close
    event is still to come. *)
Definition closing_world : World :=
  Baseline.run
    [Mounted; ReadyStateSet 0 OPEN; Opened 0; Typed "hi"; ReadyStateSet 0 CLOSING]
    (initial session).


(** The push signal of the backend for this session. *)
Definition ready_push : MessageEvent :=
  {| data := Json (JObj [("type", JStr "summary_ready"); ("userId", JStr session)]) |}.



(** The defensive component, connected. *)
Definition open_world : World :=
  Defensive.run [Mounted; ReadyStateSet 0 OPEN; Opened 0] (initial session).

(** Two fetches, every answer the not-ready one: the user asks for the
    summary; while the third retry of that fetch waits for its timer, the
    push signal starts a second fetch; the first fetch gets its last answer,
    then the second its first. *)
Definition overlapping_retries : list Event :=
  [SummaryRequested;
   FetchSettled 0 not_ready_response; TimerFired 0;
   FetchSettled 0 not_ready_response; TimerFired 0;
   FetchSettled 0 not_ready_response;
   Frame 0 ready_push;
   TimerFired 0;
   FetchSettled 1 not_ready_response;
   FetchSettled 0 not_ready_response].


(** ** Further notions: the handshake, the teardown *)

(** The frame [{type: 'init_connection', userId}]. *)
Definition init_connection (uid : string) : jsval :=
  JObj [("type", JStr "init_connection"); ("userId", JStr uid)].

Definition established_notice (t : N) : Entry :=
  SystemMsg (JStr "Connection established with Care AI.") info t.

(** The state after the open handler, up to its call of [socket.send]. *)
Definition marked_connected (w : World) : World :=
  set_chatMessages (chatMessages w ++ [established_notice (now w)])
    (set_connectionStatus "Connected" (set_isConnected true w)).

(** The state after a refused send, before any reconnection. *)
Definition noticed (w : World) : World :=
  set_chatMessages (chatMessages w ++ [cannot_send_notice (now w)]) w.

(** A WebSocket object with the four handler slots cleared. *)
Definition detached (ws : WebSocket) : bool :=
  negb (onopen ws) && negb (onmessage ws) && negb (onerror ws)
  && negb (onclose ws).

(** An event of the transport on the [i]-th WebSocket object. *)
Definition transport_event (i : nat) (ev : Event) : Prop :=
  ev = Opened i \/ (exists e, ev = Frame i e) \/ ev = Failed i
  \/ (exists e, ev = Closed i e).

(** The chat and the summary fetcher are untouched. *)
Definition same_session (w w' : World) : Prop :=
  chatMessages w' = chatMessages w /\ userInput w' = userInput w
  /\ outbox w' = outbox w /\ timers w' = timers w
  /\ requests w' = requests w /\ userId w' = userId w
  /\ doctorSummary w' = doctorSummary w
  /\ doctorSummaryLoading w' = doctorSummaryLoading w
  /\ doctorSummaryError w' = doctorSummaryError w
  /\ connectionStatus w' = connectionStatus w
  /\ isConnected w' = isConnected w.

Definition same_timers (w w' : World) : Prop := timers w' = timers w.

(** The status line after a close event. *)
Definition disconnected_status (c : N) : string :=
  "Disconnected (Code: " +:+ pretty c +:+ ")".

(** * Proofs *)

#[local] Arguments trim : simpl never.

Ltac unfold_monad :=
  unfold exec, returns, ifM, andM, orM, get, gets, modify, throw, try_catch,
    push, addSystemMessage, scrollToBottom, Date_now, JSON_parse,
    mbind, M_bind, mret, M_ret, fmap, M_fmap in *.

Ltac unfold_handlers :=
  unfold Defensive.react, Baseline.react, dispatch,
    Defensive.onMounted, Defensive.onUnmounted, Defensive.sendMessage,
    Defensive.socket_onopen, Defensive.socket_onmessage,
    Defensive.socket_onerror, Defensive.socket_onclose,
    Defensive.fetchDoctorSummary, Defensive.fetchDoctorSummary_resumed,
    Baseline.onMounted, Baseline.onUnmounted, Baseline.sendMessage,
    Baseline.socket_onopen, Baseline.socket_onmessage,
    Baseline.socket_onerror, Baseline.socket_onclose,
    Baseline.fetchDoctorSummary, Baseline.fetchDoctorSummary_resumed,
    socket_send, socket_close, socket_readyState, socket_is_set,
    socket_object, assign_handler, new_WebSocket, fetch, await_fetch,
    response_json, setTimeout, addSystemMessage, push, scrollToBottom,
    Date_now, JSON_parse, get, ToString.

(** ** Lists and strings *)

Lemma lookup_end {A} (l : list A) (x : A) : (l ++ [x]) !! length l = Some x.
Proof. apply list_lookup_middle. reflexivity. Qed.

Lemma alter_end {A} (f : A -> A) (l : list A) (x : A) :
  alter f (length l) (l ++ [x]) = l ++ [f x].
Proof.
  replace (length l) with (length l + 0) at 1 by lia.
  rewrite alter_app_r. reflexivity.
Qed.

Lemma delete_end {A} (l : list A) (x : A) : delete (length l) (l ++ [x]) = l.
Proof. rewrite delete_middle. apply app_nil_r. Qed.

Lemma lookup_length {A} (l : list A) : l !! length l = None.
Proof. apply lookup_ge_None. lia. Qed.

Lemma snoc_neq {A} (l : list A) (x : A) : l ++ [x] <> l.
Proof.
  intros H. apply (f_equal length) in H. rewrite length_app in H. cbn in H. lia.
Qed.

Lemma length_eq_prefix {A} (l1 l2 : list A) :
  l1 `prefix_of` l2 -> length l2 = length l1 -> l2 = l1.
Proof.
  intros [k ->] H. rewrite length_app in H.
  destruct k; [apply app_nil_r|cbn in H; lia].
Qed.

Lemma strict_eq_str_eq v s : strict_eq_str v s = true -> v = JStr s.
Proof.
  destruct v; cbn; try discriminate. intros H. apply String.eqb_eq in H.
  congruence.
Qed.

Lemma string_length_induction (P : string -> Prop) :
  (forall s, (forall t, String.length t < String.length s -> P t) -> P s) ->
  forall s, P s.
Proof.
  intros H s. remember (String.length s) as n eqn:Hn.
  revert s Hn. induction n as [n IH] using lt_wf_ind. intros s ->.
  apply H. intros t Ht. eapply IH; [exact Ht|reflexivity].
Qed.

Lemma trimStart_whitespace s :
  whitespace_only s = true -> trimStart s = "".
Proof.
  induction s as [s IH] using string_length_induction.
  destruct s as [|a r1]; [reflexivity|].
  cbn. destruct (ws1 a); [apply IH; cbn; lia|].
  destruct r1 as [|b r2]; [discriminate|].
  destruct (ws2 a b); [apply IH; cbn; lia|].
  destruct r2 as [|c r3]; [discriminate|].
  destruct (ws3 a b c); cbn; [apply IH; cbn; lia|discriminate].
Qed.

Lemma trimStart_other s :
  whitespace_only s = false -> whitespace_only (trimStart s) = false.
Proof.
  induction s as [s IH] using string_length_induction.
  destruct s as [|a r1]; [discriminate|].
  cbn. destruct (ws1 a) eqn:H1; [apply IH; cbn; lia|].
  destruct r1 as [|b r2]; [intros _; cbn; rewrite H1; reflexivity|].
  destruct (ws2 a b) eqn:H2; [apply IH; cbn; lia|].
  destruct r2 as [|c r3]; [intros _; cbn; rewrite H1, H2; reflexivity|].
  destruct (ws3 a b c) eqn:H3; cbn; [apply IH; cbn; lia|].
  intros _. rewrite H1, H2, H3. reflexivity.
Qed.

Lemma trimEnd_unfold s :
  trimEnd s =
  if whitespace_only s then ""
  else match s with
       | EmptyString => ""
       | String a rest => String a (trimEnd rest)
       end.
Proof. destruct s; reflexivity. Qed.

Lemma trimEnd_other s : whitespace_only s = false -> trimEnd s <> "".
Proof.
  intros H. rewrite trimEnd_unfold, H. destruct s; [discriminate H|discriminate].
Qed.

(** The test [userInput.value.trim() === ''] is the test for an empty or
    white-space-only input. *)
Lemma trim_empty s : String.eqb (trim s) "" = whitespace_only s.
Proof.
  unfold trim. destruct (whitespace_only s) eqn:H.
  - rewrite trimStart_whitespace by exact H. reflexivity.
  - apply String.eqb_neq, trimEnd_other, trimStart_other, H.
Qed.

Lemma whitespace_only_nonempty s : whitespace_only s = false -> s <> "".
Proof. intros H ->. discriminate. Qed.

(** *** The white space of [trim] is the table of white-space characters *)

Lemma whitespace_only_app t s :
  In t white_space -> whitespace_only (t +:+ s) = whitespace_only s.
Proof.
  intros H. unfold white_space in H. cbn in H.
  repeat (destruct H as [<-|H]; [reflexivity|]). destruct H.
Qed.

Lemma ascii_of_code a n : N_of_ascii a = n -> a = ascii_of_N n.
Proof. intros <-. symmetry. apply ascii_N_embedding. Qed.

Lemma ws1_table a : ws1 a = true -> In (String a "") white_space.
Proof.
  unfold ws1. intros H.
  assert (N_of_ascii a = 9 \/ N_of_ascii a = 10 \/ N_of_ascii a = 11
          \/ N_of_ascii a = 12 \/ N_of_ascii a = 13 \/ N_of_ascii a = 32)%N as Hc
    by (revert H; generalize (N_of_ascii a); intros x;
        rewrite orb_true_iff, andb_true_iff, !N.leb_le, N.eqb_eq; lia).
  repeat (destruct Hc as [Hc|Hc]; [apply ascii_of_code in Hc; subst a; cbn; tauto|]).
  apply ascii_of_code in Hc; subst a; cbn; tauto.
Qed.

Lemma ws2_table a b : ws2 a b = true -> In (String a (String b "")) white_space.
Proof.
  unfold ws2. rewrite andb_true_iff, !N.eqb_eq. intros [Ha Hb].
  apply ascii_of_code in Ha, Hb. subst a b. cbn. tauto.
Qed.

Lemma ws3_table a b c :
  ws3 a b c = true -> In (String a (String b (String c ""))) white_space.
Proof.
  unfold ws3. intros H.
  assert ((N_of_ascii a = 225 /\ N_of_ascii b = 154 /\ N_of_ascii c = 128)
          \/ (N_of_ascii a = 226 /\ N_of_ascii b = 128
              /\ (N_of_ascii c = 128 \/ N_of_ascii c = 129 \/ N_of_ascii c = 130
                  \/ N_of_ascii c = 131 \/ N_of_ascii c = 132 \/ N_of_ascii c = 133
                  \/ N_of_ascii c = 134 \/ N_of_ascii c = 135 \/ N_of_ascii c = 136
                  \/ N_of_ascii c = 137 \/ N_of_ascii c = 138 \/ N_of_ascii c = 168
                  \/ N_of_ascii c = 169 \/ N_of_ascii c = 175))
          \/ (N_of_ascii a = 226 /\ N_of_ascii b = 129 /\ N_of_ascii c = 159)
          \/ (N_of_ascii a = 227 /\ N_of_ascii b = 128 /\ N_of_ascii c = 128)
          \/ (N_of_ascii a = 239 /\ N_of_ascii b = 187 /\ N_of_ascii c = 191))%N
    as Hc.
  { revert H. generalize (N_of_ascii a) (N_of_ascii b) (N_of_ascii c).
    intros x y z.
    rewrite !orb_true_iff, !andb_true_iff, !orb_true_iff, !andb_true_iff,
      !N.leb_le, !N.eqb_eq. lia. }
  destruct Hc as [(Ha & Hb & Hc)|[(Ha & Hb & Hc)|[(Ha & Hb & Hc)|[(Ha & Hb & Hc)|(Ha & Hb & Hc)]]]];
    apply ascii_of_code in Ha, Hb; subst a b;
    try (apply ascii_of_code in Hc; subst c; cbn; tauto).
  repeat (destruct Hc as [Hc|Hc]; [apply ascii_of_code in Hc; subst c; cbn; tauto|]).
  apply ascii_of_code in Hc; subst c; cbn; tauto.
Qed.

(** An input is white-space-only exactly when it is a sequence of
    white-space characters. *)
Lemma whitespace_only_table s :
  whitespace_only s = true <->
  exists l, Forall (fun t => In t white_space) l
            /\ s = fold_right String.append "" l.
Proof.
  split.
  - induction s as [s IH] using string_length_induction.
    destruct s as [|a r1]; [intros _; exists []; split; [constructor|reflexivity]|].
    cbn. destruct (ws1 a) eqn:H1.
    { intros H. destruct (IH r1) as (l & Hl & ->); [cbn; lia|exact H|].
      exists (String a "" :: l). split; [|reflexivity].
      constructor; [apply ws1_table, H1|exact Hl]. }
    destruct r1 as [|b r2]; [discriminate|].
    destruct (ws2 a b) eqn:H2.
    { intros H. destruct (IH r2) as (l & Hl & ->); [cbn; lia|exact H|].
      exists (String a (String b "") :: l). split; [|reflexivity].
      constructor; [apply ws2_table, H2|exact Hl]. }
    destruct r2 as [|c r3]; [discriminate|].
    intros H. apply andb_prop in H as [H3 H].
    destruct (IH r3) as (l & Hl & ->); [cbn; lia|exact H|].
    exists (String a (String b (String c "")) :: l). split; [|reflexivity].
    constructor; [apply ws3_table, H3|exact Hl].
  - intros (l & Hl & ->). induction Hl as [|t l Ht Hl IH]; [reflexivity|].
    cbn [fold_right]. rewrite whitespace_only_app by exact Ht. exact IH.
Qed.

(** NBSP, the ideographic space and the byte order mark are white space; a
    text keeps the white space inside it. *)
Example trim_unicode :
  whitespace_only (String (ascii_of_N 194) (String (ascii_of_N 160) "")
                   +:+ String (ascii_of_N 227) (String (ascii_of_N 128) (String (ascii_of_N 128) ""))
                   +:+ String (ascii_of_N 239) (String (ascii_of_N 187) (String (ascii_of_N 191) "")))
  = true
  /\ trim (String (ascii_of_N 227) (String (ascii_of_N 128) (String (ascii_of_N 128) ""))
           +:+ " a b " +:+ String (ascii_of_N 194) (String (ascii_of_N 160) ""))
     = "a b".
Proof. split; reflexivity. Qed.

(** ** Relations kept by every step of a handler *)

Section Preservation.

Variable R : World -> World -> Prop.
Hypothesis R_refl : forall w, R w w.
Hypothesis R_trans : forall w1 w2 w3, R w1 w2 -> R w2 w3 -> R w1 w3.

Lemma preserves_ret {A} (a : A) : preserves R (mret a).
Proof. intros w. apply R_refl. Qed.

Lemma preserves_throw {A} (e : JsError) : preserves R (@throw A e).
Proof. intros w. apply R_refl. Qed.

Lemma preserves_gets {A} (f : World -> A) : preserves R (gets f).
Proof. intros w. apply R_refl. Qed.

Lemma preserves_modify (f : World -> World) :
  (forall w, R w (f w)) -> preserves R (modify f).
Proof. intros H w. apply H. Qed.

Lemma preserves_bind {A B} (m : M A) (k : A -> M B) :
  preserves R m -> (forall a, preserves R (k a)) -> preserves R (m ≫= k).
Proof.
  intros Hm Hk w. unfold mbind, M_bind.
  specialize (Hm w). destruct (m w) as [[a|e] w']; cbn in *; [|exact Hm].
  eapply R_trans; [exact Hm|apply Hk].
Qed.

Lemma preserves_fmap {A B} (f : A -> B) (m : M A) :
  preserves R m -> preserves R (f <$> m).
Proof.
  intros Hm w. unfold fmap, M_fmap.
  specialize (Hm w). destruct (m w) as [[a|e] w']; exact Hm.
Qed.

Lemma preserves_try_catch {A} (body : M A) (handler : JsError -> M A) :
  preserves R body -> (forall e, preserves R (handler e)) ->
  preserves R (try_catch body handler).
Proof.
  intros Hb Hh w. unfold try_catch.
  specialize (Hb w). destruct (body w) as [[a|e] w']; cbn in *; [exact Hb|].
  eapply R_trans; [exact Hb|apply Hh].
Qed.

Lemma preserves_ifM {A} (c : M bool) (t e : M A) :
  preserves R c -> preserves R t -> preserves R e -> preserves R (ifM c t e).
Proof.
  intros Hc Ht He. apply preserves_bind; [exact Hc|]. intros []; assumption.
Qed.

Lemma preserves_andM (a b : M bool) :
  preserves R a -> preserves R b -> preserves R (a &&& b).
Proof.
  intros Ha Hb. apply preserves_bind; [exact Ha|].
  intros []; [exact Hb|apply preserves_ret].
Qed.

Lemma preserves_orM (a b : M bool) :
  preserves R a -> preserves R b -> preserves R (a ||| b).
Proof.
  intros Ha Hb. apply preserves_bind; [exact Ha|].
  intros []; [apply preserves_ret|exact Hb].
Qed.

End Preservation.

(** One step down the structure of a handler; [side] proves that the
    relation is reflexive or transitive, [leaf] that a state update keeps
    it. *)
Ltac preserve_step side leaf :=
  match goal with
  | |- preserves _ (mret _) => apply preserves_ret; side
  | |- preserves _ (throw _) => apply preserves_throw; side
  | |- preserves _ (gets _) => apply preserves_gets; side
  | |- preserves _ (modify _) => apply preserves_modify; intros ?; leaf
  | |- preserves _ (_ ≫= _) => apply preserves_bind; [side| |intros ?]
  | |- preserves _ (_ <$> _) => apply preserves_fmap
  | |- preserves _ (try_catch _ _) =>
      apply preserves_try_catch; [side| |intros ?]
  | |- preserves _ (ifM _ _ _) => apply preserves_ifM; [side| | |]
  | |- preserves _ (_ &&& _) => apply preserves_andM; [side|side| |]
  | |- preserves _ (_ ||| _) => apply preserves_orM; [side|side| |]
  | |- preserves _ (match ?x with _ => _ end) => destruct x
  end.

Ltac preserve side leaf :=
  repeat first
    [ preserve_step side leaf
    | progress unfold_handlers
    | progress unfold Defensive.connectWebSocket, Baseline.connectWebSocket ].

(** *** The transcript grows *)

Lemma grows_refl w : grows w w.
Proof. unfold grows. reflexivity. Qed.

Lemma grows_trans w1 w2 w3 : grows w1 w2 -> grows w2 w3 -> grows w1 w3.
Proof. unfold grows. intros H1 H2. etrans; eassumption. Qed.

Ltac grows_side := first [exact grows_refl | exact grows_trans].
Ltac grows_leaf :=
  unfold grows; cbn; first [reflexivity | apply prefix_app_r; reflexivity].

Lemma react_grows_defensive ev : preserves grows (Defensive.react ev).
Proof. destruct ev; preserve grows_side grows_leaf. Qed.

Lemma react_grows_baseline ev : preserves grows (Baseline.react ev).
Proof. destruct ev; preserve grows_side grows_leaf. Qed.

Lemma onmessage_grows_defensive e : preserves grows (Defensive.socket_onmessage e).
Proof. preserve grows_side grows_leaf. Qed.

Lemma onmessage_grows_baseline e : preserves grows (Baseline.socket_onmessage e).
Proof. preserve grows_side grows_leaf. Qed.

Lemma run_grows_defensive evs : forall w, grows w (Defensive.run evs w).
Proof.
  induction evs as [|ev evs IH]; intros w; cbn; [apply grows_refl|].
  eapply grows_trans; [apply (react_grows_defensive ev w)|apply IH].
Qed.

Lemma run_grows_baseline evs : forall w, grows w (Baseline.run evs w).
Proof.
  induction evs as [|ev evs IH]; intros w; cbn; [apply grows_refl|].
  eapply grows_trans; [apply (react_grows_baseline ev w)|apply IH].
Qed.

(** *** The session identity stays *)

Lemma same_identity_refl w : same_identity w w.
Proof. reflexivity. Qed.

Lemma same_identity_trans w1 w2 w3 :
  same_identity w1 w2 -> same_identity w2 w3 -> same_identity w1 w3.
Proof. unfold same_identity. congruence. Qed.

Ltac identity_side := first [exact same_identity_refl | exact same_identity_trans].
Ltac identity_leaf := unfold same_identity; reflexivity.

Lemma react_identity_defensive ev : preserves same_identity (Defensive.react ev).
Proof. destruct ev; preserve identity_side identity_leaf. Qed.

Lemma react_identity_baseline ev : preserves same_identity (Baseline.react ev).
Proof. destruct ev; preserve identity_side identity_leaf. Qed.

Lemma onmessage_identity_defensive e :
  preserves same_identity (Defensive.socket_onmessage e).
Proof. preserve identity_side identity_leaf. Qed.

(** ** Connecting *)

Lemma baseline_connect w : exec Baseline.connectWebSocket w = connecting w.
Proof.
  destruct w. unfold Baseline.connectWebSocket, connecting.
  unfold assign_handler, socket_object, new_WebSocket. unfold_monad. cbn.
  repeat (rewrite ?lookup_end, ?alter_end; cbn). reflexivity.
Qed.

Lemma defensive_connect_busy w :
  transport_busy w = true ->
  Defensive.connectWebSocket w = (Normal tt, w).
Proof.
  destruct w as [? ? ? ? ? ? ? ? sk sks ? ? ? ?]. unfold transport_busy. cbn.
  intros H. unfold Defensive.connectWebSocket.
  unfold socket_is_set, socket_readyState, socket_object. unfold_monad. cbn.
  destruct sk as [i|]; [|discriminate].
  cbn. destruct (sks !! i) as [ws|]; [|discriminate]. cbn. rewrite H. reflexivity.
Qed.

Lemma defensive_connect_idle w :
  well_formed w = true -> transport_busy w = false ->
  Defensive.connectWebSocket w = (Normal tt, connecting w).
Proof.
  destruct w as [? ? ? ? ? ? ? ? sk sks ? ? ? ?].
  unfold transport_busy, well_formed. cbn.
  intros Hwf H. unfold Defensive.connectWebSocket, connecting.
  unfold socket_is_set, socket_readyState, assign_handler, socket_object,
    new_WebSocket. unfold_monad. cbn.
  destruct sk as [i|]; cbn.
  - apply Nat.ltb_lt in Hwf. apply lookup_lt_is_Some_2 in Hwf as [ws Hws].
    rewrite Hws in *. cbn. rewrite H. cbn.
    repeat (rewrite ?lookup_end, ?alter_end; cbn). reflexivity.
  - repeat (rewrite ?lookup_end, ?alter_end; cbn). reflexivity.
Qed.

(** A connection attempt touches neither the transcript, nor the outbox,
    nor the input. *)
Lemma connect_keeps w :
  let d := exec Defensive.connectWebSocket w in
  chatMessages d = chatMessages w /\ outbox d = outbox w
  /\ userInput d = userInput w.
Proof.
  destruct w as [? ? ? ? ? ? ? ? sk sks ? ? ? ?].
  unfold Defensive.connectWebSocket.
  unfold socket_is_set, socket_readyState, assign_handler, socket_object,
    new_WebSocket. unfold_monad. cbn.
  destruct sk as [i|]; cbn.
  - destruct (sks !! i) as [ws|]; cbn; [|auto].
    destruct (readyState ws); cbn; auto;
      repeat (rewrite ?lookup_end, ?alter_end; cbn); auto.
  - repeat (rewrite ?lookup_end, ?alter_end; cbn); auto.
Qed.

(** *** The baseline opens its transport on mount only *)

Lemma same_transports_refl w : same_transports w w.
Proof. reflexivity. Qed.

Lemma same_transports_trans w1 w2 w3 :
  same_transports w1 w2 -> same_transports w2 w3 -> same_transports w1 w3.
Proof. unfold same_transports. congruence. Qed.

Ltac transports_side :=
  first [exact same_transports_refl | exact same_transports_trans].
Ltac transports_leaf :=
  unfold same_transports; cbn; rewrite ?length_alter; reflexivity.





(** *** The [socket] variable refers to an existing object *)

Lemma stays_well_formed_refl w : stays_well_formed w w.
Proof. intros H. exact H. Qed.

Lemma stays_well_formed_trans w1 w2 w3 :
  stays_well_formed w1 w2 -> stays_well_formed w2 w3 -> stays_well_formed w1 w3.
Proof. unfold stays_well_formed. auto. Qed.

Lemma connecting_well_formed w : well_formed (connecting w) = true.
Proof.
  unfold well_formed, connecting. cbn. rewrite length_app. cbn.
  apply Nat.ltb_lt. lia.
Qed.

Lemma connect_well_formed_defensive :
  preserves stays_well_formed Defensive.connectWebSocket.
Proof.
  intros w Hwf. destruct (transport_busy w) eqn:Hb.
  - rewrite defensive_connect_busy by exact Hb. exact Hwf.
  - rewrite defensive_connect_idle by assumption. apply connecting_well_formed.
Qed.

Lemma connect_well_formed_baseline :
  preserves stays_well_formed Baseline.connectWebSocket.
Proof.
  intros w Hwf. fold (exec Baseline.connectWebSocket w).
  rewrite baseline_connect. apply connecting_well_formed.
Qed.

Ltac wf_side := first [exact stays_well_formed_refl | exact stays_well_formed_trans].
Ltac wf_leaf :=
  unfold stays_well_formed, well_formed; cbn;
  try match goal with
      | |- match ?s with _ => _ end = true -> _ => destruct s
      end;
  rewrite ?length_alter, ?length_app; cbn; rewrite ?Nat.ltb_lt;
  first [reflexivity | tauto | lia].

Ltac preserve_wf :=
  repeat first
    [ exact connect_well_formed_defensive
    | exact connect_well_formed_baseline
    | preserve_step wf_side wf_leaf
    | progress unfold_handlers ].

Lemma react_well_formed_defensive ev :
  preserves stays_well_formed (Defensive.react ev).
Proof. destruct ev; preserve_wf. Qed.

Lemma react_well_formed_baseline ev :
  preserves stays_well_formed (Baseline.react ev).
Proof. destruct ev; preserve_wf. Qed.

(** Every state the component reaches is well formed. *)
Lemma run_well_formed evs : forall w,
  well_formed w = true ->
  well_formed (Defensive.run evs w) = true /\ well_formed (Baseline.run evs w) = true.
Proof.
  induction evs as [|ev evs IH]; intros w Hw; cbn; [auto|]. split.
  - apply IH. apply (react_well_formed_defensive ev w Hw).
  - apply IH. apply (react_well_formed_baseline ev w Hw).
Qed.

(** ** Inbound frames *)

(** One frame, defensive handler: an entry if the frame is dispatched, a
    notice if it does not read, nothing else. *)
Lemma onmessage_length_defensive e w :
  userId w <> "" ->
  length (chatMessages (exec (Defensive.socket_onmessage e) w)) =
  length (chatMessages w)
  + (if dispatched (userId w) e then 1 else 0)
  + (if unreadable e then 1 else 0).
Proof.
  intros Hid. apply String.eqb_neq in Hid.
  destruct e as [[msg|v]];
    unfold dispatched, unreadable, has_tag, field; cbn [data].
  - unfold Defensive.socket_onmessage. unfold_monad. cbn.
    rewrite length_app. cbn. lia.
  - unfold Defensive.socket_onmessage, Defensive.fetchDoctorSummary, fetch,
      ToString.
    unfold_monad. cbn.
    destruct (nullish v) eqn:Hn.
    + cbn. assert (own v "type" = JUndefined /\ own v "payload" = JUndefined
         /\ own v "userId" = JUndefined) as (-> & -> & ->)
        by (destruct v; try discriminate; cbn; auto).
      cbn. rewrite length_app. cbn. lia.
    + cbn.
      destruct (strict_eq_str (own v "type") "ai_response") eqn:H1; cbn.
      * destruct (truthy (own v "payload")) eqn:H2; cbn.
        { destruct (nullish (own v "payload")) eqn:H3.
          - destruct (own v "payload"); discriminate.
          - cbn. rewrite length_app. cbn. lia. }
        destruct (strict_eq_str (own v "type") "system_message") eqn:H3; cbn.
        { rewrite length_app. cbn. lia. }
        destruct (strict_eq_str (own v "type") "error") eqn:H4; cbn.
        { destruct (to_string (own v "message")); cbn; rewrite length_app;
            cbn; lia. }
        destruct (strict_eq_str (own v "type") "summary_ready") eqn:H5; cbn;
          [|lia].
        destruct (strict_eq_str (own v "userId") (userId w)) eqn:H6; cbn;
          [|lia].
        rewrite Hid. cbn. rewrite length_app. cbn. lia.
      * destruct (strict_eq_str (own v "type") "system_message") eqn:H3; cbn.
        { rewrite length_app. cbn. lia. }
        destruct (strict_eq_str (own v "type") "error") eqn:H4; cbn.
        { destruct (to_string (own v "message")); cbn; rewrite length_app;
            cbn; lia. }
        destruct (strict_eq_str (own v "type") "summary_ready") eqn:H5; cbn;
          [|lia].
        destruct (strict_eq_str (own v "userId") (userId w)) eqn:H6; cbn;
          [|lia].
        rewrite Hid. cbn. rewrite length_app. cbn. lia.
Qed.

Lemma onmessage_length_baseline e w :
  length (chatMessages (exec (Baseline.socket_onmessage e) w)) =
  length (chatMessages w)
  + (if dispatched_baseline e then 1 else 0)
  + (if unreadable e then 1 else 0).
Proof.
  destruct e as [[msg|v]];
    unfold dispatched_baseline, unreadable, has_tag, field; cbn [data].
  - unfold Baseline.socket_onmessage. unfold_monad. cbn.
    rewrite length_app. cbn. lia.
  - unfold Baseline.socket_onmessage, ToString. unfold_monad. cbn.
    destruct (nullish v) eqn:Hn.
    + cbn. assert (own v "type" = JUndefined /\ own v "payload" = JUndefined)
        as (-> & ->) by (destruct v; try discriminate; cbn; auto).
      cbn. rewrite length_app. cbn. lia.
    + cbn.
      destruct (strict_eq_str (own v "type") "ai_response") eqn:H1; cbn;
        [destruct (truthy (own v "payload")) eqn:H2; cbn;
         [destruct (nullish (own v "payload")) eqn:H3;
          [destruct (own v "payload"); discriminate
          |cbn; rewrite length_app; cbn; lia]|]|];
        (destruct (strict_eq_str (own v "type") "system_message") eqn:H3; cbn;
         [rewrite length_app; cbn; lia|]);
        (destruct (strict_eq_str (own v "type") "error") eqn:H4; cbn;
         [destruct (to_string (own v "message")); cbn; rewrite length_app;
          cbn; lia|lia]).
Qed.

Lemma deliver_cons handler e frames w :
  deliver handler (e :: frames) w = deliver handler frames (exec (handler e) w).
Proof. reflexivity. Qed.

Lemma deliver_length_defensive frames : forall w,
  userId w <> "" ->
  length (chatMessages (deliver Defensive.socket_onmessage frames w)) =
  length (chatMessages w) + count (dispatched (userId w)) frames
  + count unreadable frames.
Proof.
  induction frames as [|e frames IH]; intros w Hid; [cbn; lia|].
  pose proof (onmessage_identity_defensive e w) as Hu.
  unfold same_identity in Hu. fold (exec (Defensive.socket_onmessage e) w) in Hu.
  rewrite deliver_cons, IH by (rewrite Hu; exact Hid). cbn [count].
  rewrite Hu, onmessage_length_defensive by exact Hid.
  destruct (dispatched (userId w) e), (unreadable e); lia.
Qed.

Lemma deliver_length_baseline frames : forall w,
  length (chatMessages (deliver Baseline.socket_onmessage frames w)) =
  length (chatMessages w) + count dispatched_baseline frames
  + count unreadable frames.
Proof.
  induction frames as [|e frames IH]; intros w; [cbn; lia|].
  rewrite deliver_cons, IH, onmessage_length_baseline. cbn [count].
  destruct (dispatched_baseline e), (unreadable e); lia.
Qed.

Lemma unrecognized_not_dispatched uid e :
  recognized e = false -> dispatched uid e = false /\ dispatched_baseline e = false.
Proof.
  unfold recognized, dispatched, dispatched_baseline.
  destruct (has_tag e "ai_response"), (has_tag e "system_message"),
    (has_tag e "error"), (has_tag e "summary_ready"); cbn; auto; discriminate.
Qed.

(** C2, amended. For every sequence of inbound frames given to the message
    handler, the transcript grows by exactly the number of dispatched
    frames plus the number of frames that do not read, each of which gives
    one local notice. Dispatched are: [ai_response] with a truthy payload,
    [system_message], [error], and in the defensive variant [summary_ready]
    carrying the session identity; the baseline variant knows the first
    three tags only. A frame with an unrecognized type tag appends nothing
    and produces no notice. *)
Theorem transcript_counts_dispatched_frames :
  forall (frames : list MessageEvent) (w : World),
    userId w <> "" ->
    (length (chatMessages (deliver Defensive.socket_onmessage frames w)) =
       length (chatMessages w) + count (dispatched (userId w)) frames
       + count unreadable frames)
    /\ (length (chatMessages (deliver Baseline.socket_onmessage frames w)) =
          length (chatMessages w) + count dispatched_baseline frames
          + count unreadable frames)
    /\ (forall e, recognized e = false -> unreadable e = false ->
          chatMessages (exec (Defensive.socket_onmessage e) w) = chatMessages w
          /\ chatMessages (exec (Baseline.socket_onmessage e) w) = chatMessages w).
Proof.
  intros frames w Hid. split; [|split].
  - apply deliver_length_defensive, Hid.
  - apply deliver_length_baseline.
  - intros e Hr Hu.
    destruct (unrecognized_not_dispatched (userId w) e Hr) as [Hd Hb].
    split; apply length_eq_prefix.
    + apply (onmessage_grows_defensive e w).
    + rewrite onmessage_length_defensive, Hd, Hu by exact Hid. lia.
    + apply (onmessage_grows_baseline e w).
    + rewrite onmessage_length_baseline, Hb, Hu. lia.
Qed.

Lemma transcript_counts_dispatched_frames_witness :
  userId (initial session) <> ""
  /\ length (chatMessages
               (deliver Defensive.socket_onmessage
                  [ai_response_without_payload; system_message_hello; garbled_frame]
                  (initial session))) = 2.
Proof.
  assert (userId (initial session) <> "") as H by (vm_compute; discriminate).
  split; [exact H|].
  apply (transcript_counts_dispatched_frames
           [ai_response_without_payload; system_message_hello; garbled_frame]
           (initial session) H).
Defined.

(** A frame tagged [ai_response] without payload is one of the recognized
    frames and leaves the transcript as it was: the transcript length is
    not the number of recognized frames plus a number of notices. *)
Lemma recognized_frames_not_all_counted :
  ~ (forall (frames : list MessageEvent) (w : World),
       exists notices : nat,
         length (chatMessages (deliver Defensive.socket_onmessage frames w)) =
         length (chatMessages w) + count recognized frames + notices).
Proof.
  intros H.
  destruct (H [ai_response_without_payload] (initial session)) as [n Hn].
  vm_compute in Hn. lia.
Qed.

(** C7. For every inbound frame that fails to parse as structured data (the
    text is no JSON, or it is the JSON [null]), the message handler of
    either variant returns normally, appends exactly one system notice of
    severity error and changes nothing else: the status, the connected flag
    and the socket are as they were. *)
Theorem unparseable_frame_one_error_notice :
  forall (e : MessageEvent) (w : World),
    unreadable e = true ->
    let d := exec (Defensive.socket_onmessage e) w in
    let b := exec (Baseline.socket_onmessage e) w in
    (d = set_chatMessages (chatMessages w ++ [unparseable_notice (now w)]) w
     /\ returns (Defensive.socket_onmessage e) w = true
     /\ connectionStatus d = connectionStatus w
     /\ isConnected d = isConnected w
     /\ socket d = socket w /\ sockets d = sockets w)
    /\ (b = set_chatMessages (chatMessages w ++ [unparseable_notice (now w)]) w
        /\ returns (Baseline.socket_onmessage e) w = true
        /\ connectionStatus b = connectionStatus w
        /\ isConnected b = isConnected w
        /\ socket b = socket w /\ sockets b = sockets w).
Proof.
  intros [[msg|v]] w; unfold unreadable; cbn [data]; intros H.
  - split; unfold Defensive.socket_onmessage, Baseline.socket_onmessage;
      unfold_monad; cbn; auto 10.
  - split; unfold Defensive.socket_onmessage, Baseline.socket_onmessage;
      unfold_monad; cbn; rewrite H; cbn; auto 10.
Qed.

Lemma unparseable_frame_one_error_notice_witness :
  unreadable garbled_frame = true
  /\ connectionStatus
       (exec (Defensive.socket_onmessage garbled_frame) (initial session))
     = "Disconnected".
Proof.
  split; [reflexivity|].
  apply (unparseable_frame_one_error_notice garbled_frame (initial session)).
  reflexivity.
Defined.

(** ** Closing *)

(** C6, amended. For every close event with code 1006 the connection status
    becomes "Disconnected (Code: 1006)" in both variants. In the defensive
    variant the appended notice is the abnormal-closure message, whatever
    the reason sent by the remote side. The baseline variant has no such
    message: it appends "Connection closed. " followed by the remote
    reason, as for every other code. *)
Theorem close_1006_status_and_notice :
  forall (e : CloseEvent) (w : World),
    code e = 1006%N ->
    let d := exec (Defensive.socket_onclose e) w in
    let b := exec (Baseline.socket_onclose e) w in
    (connectionStatus d = "Disconnected (Code: 1006)"
     /\ isConnected d = false
     /\ chatMessages d = chatMessages w ++ [abnormal_closure_notice (now w)])
    /\ (connectionStatus b = "Disconnected (Code: 1006)"
        /\ isConnected b = false
        /\ chatMessages b =
           chatMessages w
           ++ [SystemMsg (JStr ("Connection closed. " +:+ reason e)) error (now w)]).
Proof.
  intros e w Hc d b. subst d b.
  unfold Defensive.socket_onclose, Baseline.socket_onclose. unfold_monad.
  cbn. rewrite Hc. cbn. auto 10.
Qed.

Lemma close_1006_status_and_notice_witness :
  code abnormal_close = 1006%N
  /\ chatMessages (exec (Defensive.socket_onclose abnormal_close) (initial session))
     = [abnormal_closure_notice 0].
Proof.
  split; [reflexivity|].
  apply (close_1006_status_and_notice abnormal_close (initial session)).
  reflexivity.
Defined.

(** The baseline handler, on a close with code 1006, appends the generic
    text with the remote reason. *)
Lemma baseline_close_1006_no_distinguished_notice :
  let b := exec (Baseline.socket_onclose abnormal_close) (initial session) in
  connectionStatus b = "Disconnected (Code: 1006)"
  /\ chatMessages b =
     [SystemMsg (JStr "Connection closed. server restart") error 0]
  /\ chatMessages b <> [abnormal_closure_notice 0].
Proof. vm_compute. repeat split. discriminate. Qed.

(** For the other codes the defensive handler appends the remote reason, or
    "Connection closed." when there is none. *)
Lemma close_other_codes (e : CloseEvent) (w : World) :
  code e <> 1006%N ->
  chatMessages (exec (Defensive.socket_onclose e) w) =
  chatMessages w
  ++ [SystemMsg (JStr (if String.eqb (reason e) "" then "Connection closed."
                       else reason e)) error (now w)].
Proof.
  intros Hc. apply N.eqb_neq in Hc.
  unfold Defensive.socket_onclose. unfold_monad. cbn. rewrite Hc. reflexivity.
Qed.

(** ** Sending *)

Lemma defensive_send_refused w :
  well_formed w = true ->
  whitespace_only (userInput w) = true \/ isConnected w = false
  \/ transport_open w = false ->
  refused w (exec Defensive.sendMessage w).
Proof.
  intros Hwf H. unfold refused.
  pose proof (connect_keeps
    (set_chatMessages (chatMessages w ++ [cannot_send_notice (now w)]) w)) as Hk.
  cbn in Hk.
  destruct w as [inp ? ? ? ? ? ? conn sk sks ? ? ? ?].
  unfold well_formed, transport_open in *. cbn in *.
  unfold Defensive.sendMessage.
  unfold socket_is_set, socket_readyState, socket_object. unfold_monad.
  cbn. rewrite trim_empty.
  unfold set_chatMessages, exec in Hk. cbn in Hk.
  destruct sk as [i|]; cbn.
  - apply Nat.ltb_lt in Hwf. apply lookup_lt_is_Some_2 in Hwf as [ws Hws'].
    rewrite Hws' in H.
    destruct (whitespace_only inp) eqn:Hws, conn; cbn;
      repeat (rewrite ?Hws'; cbn); try exact Hk.
    + destruct (readyState ws) eqn:Hrs; cbn; auto; exact Hk.
    + destruct H as [H|[H|H]]; try discriminate.
      destruct (readyState ws) eqn:Hrs; try discriminate; cbn;
        repeat (rewrite ?Hws', ?Hrs; cbn); exact Hk.
  - destruct (whitespace_only inp) eqn:Hws, conn; cbn; auto; exact Hk.
Qed.

Lemma defensive_send_sent w :
  whitespace_only (userInput w) = false -> isConnected w = true ->
  transport_open w = true ->
  sent w (exec Defensive.sendMessage w).
Proof.
  destruct w as [inp ? ? ? ? ? ? conn sk sks ? ? ? ?].
  unfold transport_open, sent. cbn. intros Hws -> Ht.
  unfold Defensive.sendMessage.
  unfold socket_send, socket_is_set, socket_readyState, socket_object.
  unfold_monad. cbn. rewrite trim_empty, Hws. cbn.
  destruct sk as [i|]; [|discriminate]. cbn.
  destruct (sks !! i) as [ws|] eqn:Hi; [|discriminate]. cbn.
  destruct (readyState ws) eqn:Hrs; try discriminate.
  repeat (rewrite ?Hi, ?Hrs; cbn).
  exists i. auto.
Qed.

Lemma baseline_send_refused w :
  whitespace_only (userInput w) = true \/ socket w = None
  \/ isConnected w = false ->
  exec Baseline.sendMessage w =
  set_chatMessages (chatMessages w ++ [cannot_send_notice (now w)]) w.
Proof.
  destruct w as [inp ? ? ? ? ? ? conn sk sks ? ? ? ?]. cbn. intros H.
  unfold Baseline.sendMessage. unfold socket_is_set. unfold_monad.
  cbn. rewrite trim_empty.
  destruct (whitespace_only inp); cbn; [reflexivity|].
  destruct sk as [i|]; cbn; [|reflexivity].
  destruct conn; cbn; [|reflexivity].
  destruct H as [H|[H|H]]; discriminate.
Qed.

Lemma baseline_send_sent w :
  whitespace_only (userInput w) = false -> isConnected w = true ->
  transport_open w = true ->
  sent w (exec Baseline.sendMessage w).
Proof.
  destruct w as [inp ? ? ? ? ? ? conn sk sks ? ? ? ?].
  unfold transport_open, sent. cbn. intros Hws -> Ht.
  unfold Baseline.sendMessage.
  unfold socket_send, socket_is_set, socket_object.
  unfold_monad. cbn. rewrite trim_empty, Hws. cbn.
  destruct sk as [i|]; [|discriminate]. cbn.
  destruct (sks !! i) as [ws|] eqn:Hi; [|discriminate]. cbn.
  destruct (readyState ws) eqn:Hrs; try discriminate.
  repeat (rewrite ?Hi, ?Hrs; cbn).
  exists i. auto.
Qed.

(** In the baseline variant a frame goes out only if the input has text, the
    connected flag is up and the transport is open. *)
Lemma baseline_send_outbox w :
  well_formed w = true ->
  outbox (exec Baseline.sendMessage w) <> outbox w ->
  whitespace_only (userInput w) = false /\ isConnected w = true
  /\ transport_open w = true.
Proof.
  destruct w as [inp ? ? ? ? ? ? conn sk sks ? ? ? ?].
  unfold transport_open, well_formed. cbn.
  unfold Baseline.sendMessage.
  unfold socket_send, socket_is_set, socket_object.
  unfold_monad. cbn. rewrite trim_empty. intros Hwf.
  destruct (whitespace_only inp); cbn; [congruence|].
  destruct sk as [i|]; cbn; [|congruence].
  destruct conn; cbn; [|congruence].
  destruct (sks !! i) as [ws|] eqn:Hi; cbn; [|congruence].
  destruct (readyState ws) eqn:Hrs; repeat (rewrite ?Hi, ?Hrs; cbn);
    first [congruence | auto].
Qed.

(** C4, amended. In the defensive variant, a call of [sendMessage] with an
    empty or white-space-only input, or while the connected flag is down or
    the transport is not open, transmits no frame, appends no user entry
    and appends exactly one error notice; otherwise exactly one frame
    [{type: chat_message, userId, message}] is transmitted and exactly one
    user entry with the sent text is appended. The baseline variant tests
    the input, the [socket] variable and the connected flag only: it
    refuses in the same way when the input is empty or white-space-only,
    the variable is unset or the flag is down, and it sends in the same way
    when the flag is up and the transport is open. *)
Theorem send_guard :
  forall w : World,
    well_formed w = true ->
    let d := exec Defensive.sendMessage w in
    let b := exec Baseline.sendMessage w in
    (whitespace_only (userInput w) = true \/ isConnected w = false
     \/ transport_open w = false -> refused w d)
    /\ (whitespace_only (userInput w) = false -> isConnected w = true ->
        transport_open w = true -> sent w d)
    /\ (whitespace_only (userInput w) = true \/ socket w = None
        \/ isConnected w = false -> refused w b)
    /\ (whitespace_only (userInput w) = false -> isConnected w = true ->
        transport_open w = true -> sent w b).
Proof.
  intros w Hwf d b. subst d b. split; [|split; [|split]].
  - apply defensive_send_refused; assumption.
  - apply defensive_send_sent; assumption.
  - intros H. rewrite baseline_send_refused by exact H. repeat split.
  - apply baseline_send_sent; assumption.
Qed.

Lemma send_guard_witness :
  well_formed typed_world = true
  /\ (whitespace_only (userInput typed_world) = false ->
      isConnected typed_world = true -> transport_open typed_world = true ->
      sent typed_world (exec Defensive.sendMessage typed_world)).
Proof.
  split; [reflexivity|].
  apply (send_guard typed_world). reflexivity.
Defined.

(** The baseline [sendMessage], called while the transport is closing and
    the connected flag is still up: the transport is not open, no frame
    goes out, no error notice is made, and the user entry is appended. *)
Lemma baseline_send_while_closing :
  let b := exec Baseline.sendMessage closing_world in
  transport_open closing_world = false
  /\ chatMessages b = chatMessages closing_world ++ [UserMsg "hi" 0]
  /\ outbox b = outbox closing_world
  /\ count is_error_notice (chatMessages b) =
     count is_error_notice (chatMessages closing_world).
Proof. vm_compute. repeat split. Qed.

(** C10, amended. In the defensive variant, when [sendMessage] refuses to
    send the input buffer is left unchanged, and the input buffer is cleared
    exactly when a chat_message frame is transmitted. In the baseline
    variant the input buffer is left unchanged when the input is empty or
    white-space-only, the [socket] variable is unset or the connected flag
    is down, and it is cleared whenever a chat_message frame is
    transmitted. *)
Theorem input_cleared_when_sent :
  forall w : World,
    well_formed w = true ->
    let d := exec Defensive.sendMessage w in
    let b := exec Baseline.sendMessage w in
    (whitespace_only (userInput w) = true \/ isConnected w = false
     \/ transport_open w = false -> userInput d = userInput w)
    /\ (outbox d <> outbox w <-> userInput d = "" /\ userInput w <> "")
    /\ (outbox d <> outbox w ->
        exists i, outbox d = outbox w ++ [(i, chat_message (userId w) (userInput w))])
    /\ (whitespace_only (userInput w) = true \/ socket w = None
        \/ isConnected w = false -> userInput b = userInput w)
    /\ (outbox b <> outbox w ->
        userInput b = ""
        /\ exists i, outbox b = outbox w ++ [(i, chat_message (userId w) (userInput w))]).
Proof.
  intros w Hwf d b. subst d b.
  assert (whitespace_only (userInput w) = true \/ isConnected w = false
          \/ transport_open w = false
          \/ (whitespace_only (userInput w) = false /\ isConnected w = true
              /\ transport_open w = true)) as Hcase
    by (destruct (whitespace_only (userInput w)), (isConnected w),
          (transport_open w); auto 10).
  assert (whitespace_only (userInput w) = true \/ isConnected w = false
          \/ transport_open w = false ->
          refused w (exec Defensive.sendMessage w)) as Href
    by (apply defensive_send_refused; exact Hwf).
  split; [|split; [|split; [|split]]].
  - intros H. apply Href in H as (_ & _ & H). exact H.
  - destruct Hcase as [H|[H|[H|(H1 & H2 & H3)]]].
    1-3: destruct Href as (_ & Ho & Hi); auto;
      rewrite Ho, Hi; split; [congruence|intros [-> Hne]; congruence].
    destruct (defensive_send_sent w H1 H2 H3) as (i & _ & Ho & _ & Hi).
    rewrite Ho, Hi. split.
    + intros _. split; [reflexivity|apply whitespace_only_nonempty, H1].
    + intros _. apply snoc_neq.
  - destruct Hcase as [H|[H|[H|(H1 & H2 & H3)]]].
    1-3: destruct Href as (_ & Ho & _); auto; congruence.
    destruct (defensive_send_sent w H1 H2 H3) as (i & _ & Ho & _ & _).
    intros _. exists i. exact Ho.
  - intros H. rewrite baseline_send_refused by exact H. reflexivity.
  - intros H. destruct (baseline_send_outbox w Hwf H) as (H1 & H2 & H3).
    destruct (baseline_send_sent w H1 H2 H3) as (i & _ & Ho & _ & Hi).
    split; [exact Hi|]. exists i. exact Ho.
Qed.

Lemma input_cleared_when_sent_witness :
  well_formed typed_world = true
  /\ (outbox (exec Defensive.sendMessage typed_world) <> outbox typed_world
      <-> userInput (exec Defensive.sendMessage typed_world) = ""
          /\ userInput typed_world <> "").
Proof.
  split; [reflexivity|].
  apply (input_cleared_when_sent typed_world). reflexivity.
Defined.

(** The baseline [sendMessage], called while the transport is closing and
    the connected flag is still up, clears the input though no frame goes
    out. *)
Lemma baseline_input_cleared_without_frame :
  let b := exec Baseline.sendMessage closing_world in
  userInput closing_world = "hi"
  /\ userInput b = ""
  /\ outbox b = outbox closing_world.
Proof. vm_compute. repeat split. Qed.

(** ** Fetching the summary *)

Lemma fetch_start a w :
  userId w <> "" ->
  Defensive.fetchDoctorSummary a w =
  (Normal tt,
   let w' := if Nat.eqb a 0 then begin_loading w else w in
   set_requests (requests w ++ [(summary_url (userId w), a)]) w').
Proof.
  intros Hid. apply String.eqb_neq in Hid.
  unfold Defensive.fetchDoctorSummary, fetch, begin_loading, summary_url.
  unfold_monad. cbn. rewrite Hid. destruct a; reflexivity.
Qed.

Lemma not_ready_inv o :
  not_ready o = true ->
  exists r v, o = Resolved r /\ status r = 404%N /\ body r = Json v
              /\ nullish v = false /\ strict_eq_str (own v "message") not_yet = true.
Proof.
  destruct o as [e|r]; cbn; [discriminate|].
  intros H. apply andb_prop in H as [Hs H]. apply N.eqb_eq in Hs.
  destruct (body r) as [msg|v] eqn:Hb; [discriminate|].
  apply andb_prop in H as [Hn H]. apply negb_true_iff in Hn.
  exists r, v. auto.
Qed.

Lemma not_ready_no_document o : not_ready o = true -> document_of o = None.
Proof.
  intros H. destruct (not_ready_inv o H) as (r & v & -> & Hs & _).
  unfold document_of, ok. rewrite Hs. reflexivity.
Qed.

(** The not-ready answer with retries left: a notice, a timer, and nothing
    else changes; the loading flag stays. *)
Lemma resumed_retry a o w :
  not_ready o = true -> a < Defensive.MAX_SUMMARY_RETRIES ->
  exec (Defensive.fetchDoctorSummary_resumed a o) w =
  set_timers (timers w ++ [(Defensive.SUMMARY_RETRY_DELAY, a + 1)])
    (set_chatMessages (chatMessages w ++ [retry_notice a (now w)]) w).
Proof.
  intros Hnr Ha. destruct (not_ready_inv o Hnr) as (r & v & -> & Hs & Hb & Hn & Hm).
  unfold not_yet, Defensive.MAX_SUMMARY_RETRIES in *.
  unfold Defensive.fetchDoctorSummary_resumed, await_fetch, response_json,
    setTimeout, ok, retry_notice. unfold_monad.
  cbn. rewrite Hs, Hb. cbn. rewrite Hn. cbn. rewrite Hm. cbn.
  destruct a as [|[|[|a]]]; [reflexivity..|lia].
Qed.

(** The not-ready answer with no retry left: the fetch fails. *)
Lemma resumed_exhausted a o w :
  not_ready o = true -> Defensive.MAX_SUMMARY_RETRIES <= a ->
  exec (Defensive.fetchDoctorSummary_resumed a o) w =
  set_doctorSummaryLoading false
    (set_chatMessages
       (chatMessages w
        ++ [SystemMsg (JStr ("Error fetching summary: " +:+ not_yet)) error (now w)])
       (set_doctorSummaryError not_yet w)).
Proof.
  intros Hnr Ha. destruct (not_ready_inv o Hnr) as (r & v & -> & Hs & Hb & Hn & Hm).
  unfold not_yet, Defensive.MAX_SUMMARY_RETRIES in *.
  unfold Defensive.fetchDoctorSummary_resumed, await_fetch, response_json,
    setTimeout, ok, ToString. unfold_monad.
  cbn. rewrite Hs, Hb. cbn. rewrite Hn. cbn. rewrite Hm. cbn.
  destruct a as [|[|[|a]]]; [lia..|]. cbn.
  apply strict_eq_str_eq in Hm. rewrite Hm. cbn. reflexivity.
Qed.

(** An answer that carries a document: the document is stored, the notice
    of success is appended, the error and the loading flag are cleared. *)
Lemma resumed_document a o v w :
  document_of o = Some v ->
  exec (Defensive.fetchDoctorSummary_resumed a o) w =
  set_doctorSummaryLoading false
    (set_doctorSummaryError ""
       (set_chatMessages (chatMessages w ++ [loaded_notice (now w)])
          (set_doctorSummary v w))).
Proof.
  unfold document_of. destruct o as [e|r]; [discriminate|].
  destruct (ok r) eqn:Hok; [|discriminate].
  destruct (body r) as [msg|v'] eqn:Hb; [discriminate|].
  destruct (truthy v' && truthy (own v' "error")) eqn:Ht; [discriminate|].
  intros [= ->].
  unfold Defensive.fetchDoctorSummary_resumed, await_fetch, response_json,
    loaded_notice. unfold_monad. cbn. rewrite Hok, Hb. cbn.
  destruct (truthy v) eqn:Hv; cbn; [|reflexivity].
  assert (nullish v = false) as Hn by (destruct v; try discriminate; reflexivity).
  rewrite Hn. cbn. cbn in Ht. rewrite Ht. reflexivity.
Qed.

(** Every answer without a document, but for the not-ready one with retries
    left, fails the fetch. *)
Lemma resumed_failure a o w :
  document_of o = None ->
  not_ready o = false \/ Defensive.MAX_SUMMARY_RETRIES <= a ->
  failed_on w (exec (Defensive.fetchDoctorSummary_resumed a o) w).
Proof.
  intros Hd H. unfold failed_on.
  destruct (not_ready o) eqn:Hnr.
  { destruct H as [H|H]; [discriminate|].
    rewrite resumed_exhausted by assumption. cbn. auto 8. }
  clear H. unfold document_of in Hd.
  unfold Defensive.fetchDoctorSummary_resumed, await_fetch, response_json,
    setTimeout, ToString. unfold_monad.
  destruct o as [e|r]; cbn; [auto 8|].
  cbn in Hnr.
  destruct (ok r) eqn:Hok; cbn.
  - destruct (body r) as [msg|v]; cbn; [auto 8|].
    destruct (truthy v) eqn:Hv; cbn in Hd |- *; [|discriminate].
    destruct (nullish v) eqn:Hn; cbn; [destruct v; discriminate|].
    destruct (truthy (own v "error")); cbn in Hd |- *; [|discriminate].
    rewrite ?Hn. cbn.
    destruct (to_string (own v "error")); cbn; auto 8.
  - destruct (body r) as [msg|v]; cbn.
    + destruct (status r =? 404)%N; cbn; auto 8.
    + destruct (status r =? 404)%N eqn:Hs; cbn.
      * destruct (nullish v) eqn:Hn; cbn; [auto 8|].
        cbn in Hnr. rewrite Hnr. cbn. rewrite ?Hn. cbn.
        destruct (truthy (own v "message")); cbn; [|auto 8].
        destruct (to_string (own v "message")); cbn; auto 8.
      * destruct (nullish v) eqn:Hn; cbn; [auto 8|].
        destruct (truthy (own v "message")); cbn; [|auto 8].
        destruct (to_string (own v "message")); cbn; auto 8.
Qed.

(** The end of a fetch that started from a cleared summary. *)
Lemma resumed_settles a o w :
  not_ready o = false \/ Defensive.MAX_SUMMARY_RETRIES <= a ->
  doctorSummary w = JNull ->
  let d := exec (Defensive.fetchDoctorSummary_resumed a o) w in
  settled_as o d /\ requests d = requests w /\ timers d = timers w.
Proof.
  intros H Hs d. subst d. unfold settled_as.
  destruct (document_of o) as [v|] eqn:Hd.
  - rewrite (resumed_document a o v w Hd). unfold summary_state. cbn.
    split; [|split; reflexivity].
    split; [reflexivity|]. split; [reflexivity|]. split; [reflexivity|].
    split; [|destruct (truthy v); reflexivity].
    exists (chatMessages w), (now w). reflexivity.
  - destruct (resumed_failure a o w Hd H) as (Hr & Ht & Hl & Hds & Hc).
    assert (doctorSummary (exec (Defensive.fetchDoctorSummary_resumed a o) w) = JNull)
      as Hnull by (destruct Hds as [Hds|Hds]; congruence).
    split; [|split; assumption].
    split; [exact Hl|]. split; [exact Hnull|]. split.
    + exists (chatMessages w), (now w). exact Hc.
    + unfold summary_state. rewrite Hl, Hnull.
      destruct (String.eqb _ ""); reflexivity.
Qed.

(** C3, amended. In the defensive variant, for every summary fetch whose
    HTTP response is successful but whose parsed body has a truthy [error]
    field, the body is never stored as the summary; the fetch fails: the
    error message is set, exactly one error notice is appended and the
    loading flag is cleared. When the error field has a rendering as text,
    the summary is set to null and the message is "Server-side summary
    generation issue: " followed by it; when it has none, the message is
    that of the TypeError and the summary is left as it was. The baseline
    variant does not look for an error indicator: it stores the body as the
    summary and leaves the error as it was. *)
Theorem error_body_is_a_failure :
  forall (attempt : nat) (r : Response) (v : jsval) (w : World),
    error_body r v ->
    let d := exec (Defensive.fetchDoctorSummary_resumed attempt (Resolved r)) w in
    let b := exec (Baseline.fetchDoctorSummary_resumed (Resolved r)) w in
    (doctorSummaryLoading d = false
     /\ doctorSummaryError d <> ""
     /\ summary_state d = FailedWith (doctorSummaryError d)
     /\ match to_string (own v "error") with
        | Some s =>
            doctorSummary d = JNull
            /\ doctorSummaryError d =
               "Server-side summary generation issue: " +:+ s
            /\ chatMessages d =
               chatMessages w
               ++ [SystemMsg (JStr (doctorSummaryError d)) error (now w)]
        | None =>
            doctorSummary d = doctorSummary w
            /\ doctorSummaryError d = message conversion_error
            /\ chatMessages d =
               chatMessages w
               ++ [SystemMsg
                     (JStr ("Error fetching summary: " +:+ doctorSummaryError d))
                     error (now w)]
        end)
    /\ (doctorSummary b = v
        /\ doctorSummaryError b = doctorSummaryError w
        /\ doctorSummaryLoading b = false).
Proof.
  intros attempt r v w (Hok & Hbody & Herr) d b. subst d b.
  assert (nullish v = false) as Hn by (destruct v; try discriminate; reflexivity).
  assert (truthy v = true) as Hv by (destruct v; try discriminate; reflexivity).
  unfold Defensive.fetchDoctorSummary_resumed, Baseline.fetchDoctorSummary_resumed,
    summary_state, await_fetch, response_json, ToString.
  unfold_monad. cbn. rewrite Hok, Hbody. cbn. rewrite Hv, Hn. cbn.
  rewrite Herr. cbn.
  destruct (to_string (own v "error")) as [s|]; cbn;
    (split; [|auto]); repeat split; discriminate.
Qed.

Lemma error_body_is_a_failure_witness :
  error_body error_response error_document
  /\ doctorSummaryLoading
       (exec (Defensive.fetchDoctorSummary_resumed 0 (Resolved error_response))
          (Defensive.step SummaryRequested (initial session))) = false.
Proof.
  assert (error_body error_response error_document) as H
    by (repeat split; reflexivity).
  split; [exact H|].
  apply (error_body_is_a_failure 0 error_response error_document
           (Defensive.step SummaryRequested (initial session)) H).
Defined.

(** The baseline fetch, answered with a body that carries an error
    indicator, shows that body as the summary. *)
Lemma baseline_error_body_becomes_summary :
  let b := Baseline.run [SummaryRequested; FetchSettled 0 (Resolved error_response)]
             (initial session) in
  error_body error_response error_document
  /\ doctorSummary b = error_document
  /\ doctorSummaryError b = ""
  /\ summary_state b = Ready error_document.
Proof. vm_compute. repeat split; reflexivity. Qed.

(** An error field without rendering as text: the fetch fails on the
    TypeError. *)
Example error_body_without_rendering :
  let d := Defensive.run
             [SummaryRequested;
              FetchSettled 0
                (Resolved {| status := 200; statusText := "OK";
                             body := Json (JObj [("error",
                                             JObj [("toString", JNum "1")])]) |})]
             (initial session) in
  doctorSummary d = JNull
  /\ doctorSummaryError d = "Cannot convert object to primitive value"
  /\ doctorSummaryLoading d = false.
Proof. vm_compute. repeat split; reflexivity. Qed.

(** *** One fetch, served alone *)

Section Drive.

Variable server : nat -> FetchOutcome.
Variables k j : nat.

Lemma drive_settle fuel n w rs u a :
  requests w = rs ++ [(u, a)] -> length rs = k ->
  drive (S fuel) server k j n w =
  let o := drive fuel server k j (S n)
             (exec (Defensive.fetchDoctorSummary_resumed a (server n))
                (set_requests rs w)) in
  Build_Observation (settled o) (S (calls o)) (waits o) (w :: under_way o)
    (final o).
Proof.
  intros Hr Hk. subst k. cbn [drive].
  rewrite Hr, lookup_end. unfold Defensive.step, Defensive.react.
  unfold_monad. repeat (cbn; rewrite ?Hr, ?lookup_end, ?delete_end).
  reflexivity.
Qed.

Lemma drive_timer fuel n w ts delay a :
  length (requests w) = k -> timers w = ts ++ [(delay, a)] -> length ts = j ->
  drive (S fuel) server k j n w =
  let o := drive fuel server k j n
             (exec (Defensive.fetchDoctorSummary a)
                (set_timers ts (set_now (now w + delay) w))) in
  Build_Observation (settled o) (calls o) (delay :: waits o) (w :: under_way o)
    (final o).
Proof.
  intros Hk Ht Hj. subst k j. cbn [drive].
  rewrite lookup_length, Ht, lookup_end. unfold Defensive.step, Defensive.react.
  unfold_monad. repeat (cbn; rewrite ?Ht, ?lookup_end, ?delete_end).
  reflexivity.
Qed.

Lemma drive_end fuel n w :
  length (requests w) = k -> length (timers w) = j ->
  drive (S fuel) server k j n w = Build_Observation true 0 [] [] w.
Proof.
  intros Hk Hj. subst k j. cbn [drive]. rewrite !lookup_length. reflexivity.
Qed.

(** A round that ends in a retry: the answer is the not-ready one and
    retries are left. *)
Lemma retry_round fuel n w a :
  pending k j a w -> not_ready (server n) = true ->
  a < Defensive.MAX_SUMMARY_RETRIES ->
  exists w1 w2,
    drive (S (S fuel)) server k j n w =
      (let o := drive fuel server k j (S n) w2 in
       Build_Observation (settled o) (S (calls o))
         (Defensive.SUMMARY_RETRY_DELAY :: waits o)
         (w :: w1 :: under_way o) (final o))
    /\ pending k j (a + 1) w2
    /\ doctorSummaryLoading w1 = true
    /\ doctorSummaryError w2 = doctorSummaryError w
    /\ length (chatMessages w2) = S (length (chatMessages w)).
Proof.
  intros (Hid & (rs & u & Hr & Hk) & Hj & Hl & Hs) Hnr Ha.
  rewrite (drive_settle _ _ _ rs u a Hr Hk). cbn zeta.
  rewrite resumed_retry by assumption.
  set (w1 := set_timers _ _).
  erewrite (drive_timer fuel (S n) w1 (timers w));
    [|exact Hk|reflexivity|exact Hj].
  cbn zeta. unfold exec. rewrite fetch_start by exact Hid.
  replace (a + 1 =? 0)%nat with false by (symmetry; apply Nat.eqb_neq; lia).
  cbn [snd]. cbn zeta. set (w2 := set_requests _ _).
  exists w1, w2. split; [reflexivity|].
  subst w1 w2. cbn. rewrite length_app. cbn.
  repeat split; auto; [|lia].
  exists rs, (summary_url (userId w)). auto.
Qed.

(** A round that ends the fetch. *)
Lemma last_round fuel n w a :
  pending k j a w ->
  not_ready (server n) = false \/ Defensive.MAX_SUMMARY_RETRIES <= a ->
  exists rs u,
    requests w = rs ++ [(u, a)]
    /\ drive (S (S fuel)) server k j n w =
       Build_Observation true 1 [] [w]
         (exec (Defensive.fetchDoctorSummary_resumed a (server n))
            (set_requests rs w))
    /\ settled_as (server n)
         (exec (Defensive.fetchDoctorSummary_resumed a (server n))
            (set_requests rs w)).
Proof.
  intros (Hid & (rs & u & Hr & Hk) & Hj & Hl & Hs) H.
  exists rs, u. split; [exact Hr|].
  rewrite (drive_settle _ _ _ rs u a Hr Hk). cbn zeta.
  destruct (resumed_settles a (server n) (set_requests rs w) H Hs)
    as (Hset & Her & Het).
  cbn in Her, Het.
  rewrite drive_end by (rewrite ?Her, ?Het; assumption).
  cbn. split; [reflexivity|exact Hset].
Qed.


(** The server keeps answering that the summary is not ready. *)
Hypothesis never_ready : forall n, not_ready (server n) = true.

Lemma drive_never_ready d : forall a n fuel w,
  a + d = Defensive.MAX_SUMMARY_RETRIES -> 2 * d + 2 <= fuel ->
  pending k j a w ->
  let o := drive fuel server k j n w in
  settled o = true
  /\ calls o = d + 1
  /\ waits o = repeat Defensive.SUMMARY_RETRY_DELAY d
  /\ length (under_way o) = 2 * d + 1
  /\ Forall (fun w' => doctorSummaryLoading w' = true) (under_way o)
  /\ doctorSummaryLoading (final o) = false
  /\ doctorSummaryError (final o) = not_yet
  /\ doctorSummary (final o) = JNull
  /\ length (chatMessages (final o)) = length (chatMessages w) + d + 1.
Proof.
  induction d as [|d IH]; intros a n fuel w Ha Hf Hp;
    destruct fuel as [|[|fuel]]; try lia;
    pose proof Hp as (_ & _ & _ & Hl & Hs).
  - destruct (last_round fuel n w a Hp) as (rs & u & _ & -> & _);
      [right; lia|].
    rewrite resumed_exhausted by (auto; lia). cbn. rewrite length_app. cbn.
    repeat split; auto; lia.
  - destruct (retry_round fuel n w a Hp (never_ready n))
      as (w1 & w2 & -> & Hp2 & Hl1 & _ & Hc); [lia|].
    destruct (IH (a + 1) (S n) fuel w2)
      as (H1 & H2 & H3 & H4 & H5 & H6 & H7 & H8 & H9); [lia|lia|exact Hp2|].
    cbn. rewrite H2, H3, H4, H9, Hc. repeat split; auto; try lia.
Qed.

End Drive.

(** The user's request starts the fetch: the state is Loading, whatever it
    was, and the first request is pending. *)
Lemma lone_fetch_pending w :
  userId w <> "" ->
  pending (length (requests w)) (length (timers w)) 0
    (Defensive.step SummaryRequested w)
  /\ summary_state (Defensive.step SummaryRequested w) = Loading
  /\ doctorSummaryError (Defensive.step SummaryRequested w) = ""
  /\ chatMessages (Defensive.step SummaryRequested w) = chatMessages w.
Proof.
  intros Hid. unfold Defensive.step, Defensive.react, exec, pending.
  rewrite fetch_start by exact Hid. cbn. repeat split; auto.
  exists (requests w), (summary_url (userId w)). auto.
Qed.

(** A timer that fires calls [fetchDoctorSummary] with its attempt, which
    issues the request of that attempt and, the attempt being no first one,
    touches nothing else. *)
Lemma timer_fires_retry w j delay a :
  userId w <> "" -> timers w !! j = Some (delay, a) -> a <> 0 ->
  Defensive.step (TimerFired j) w =
  set_requests (requests w ++ [(summary_url (userId w), a)])
    (set_timers (delete j (timers w)) w).
Proof.
  intros Hid Ht Ha. unfold Defensive.step, Defensive.react.
  unfold_monad. cbn. rewrite Ht. cbn. unfold exec in *.
  rewrite fetch_start by exact Hid.
  destruct a; [congruence|]. reflexivity.
Qed.

(** The retries of a fetch of the defensive variant that keeps receiving
    the not-ready response (HTTP 404 with the message "Doctor summary not yet
    available."). Served alone, the fetch makes four requests and waits three
    times 3000 ms, the loading flag is set in every state in which it is
    under way, and it ends with the flag cleared and the error set. Whatever
    else happens meanwhile, the answer to each of the attempts 0, 1 and 2
    schedules one retry after 3000 ms and appends its notice without writing
    the loading flag, the timer issues the request of the next attempt
    without writing it either, and the answer to attempt
    MAX_SUMMARY_RETRIES = 3 fails the fetch. *)
Theorem not_ready_fetch_retries_then_fails :
  forall (server : nat -> FetchOutcome) (w : World) (fuel : nat),
    userId w <> "" ->
    (forall n, not_ready (server n) = true) ->
    2 * Defensive.MAX_SUMMARY_RETRIES + 2 <= fuel ->
    (let o := lone_fetch fuel server w in
     settled o = true
     /\ calls o = Defensive.MAX_SUMMARY_RETRIES + 1
     /\ waits o = [3000; 3000; 3000]%N
     /\ length (under_way o) = 7
     /\ Forall (fun w' => doctorSummaryLoading w' = true) (under_way o)
     /\ doctorSummaryLoading (final o) = false
     /\ doctorSummaryError (final o) = "Doctor summary not yet available."
     /\ summary_state (final o) = FailedWith "Doctor summary not yet available."
     /\ length (chatMessages (final o)) = length (chatMessages w) + 4)
    /\ (forall (w' : World) (a : nat) (o : FetchOutcome),
          not_ready o = true ->
          let d := exec (Defensive.fetchDoctorSummary_resumed a o) w' in
          (a < Defensive.MAX_SUMMARY_RETRIES ->
           d = set_timers (timers w' ++ [(3000%N, a + 1)])
                 (set_chatMessages (chatMessages w' ++ [retry_notice a (now w')]) w'))
          /\ (Defensive.MAX_SUMMARY_RETRIES <= a ->
              doctorSummaryLoading d = false
              /\ doctorSummaryError d = "Doctor summary not yet available."
              /\ timers d = timers w' /\ requests d = requests w'))
    /\ (forall (w' : World) (j : nat) (delay : N) (a : nat),
          userId w' <> "" -> timers w' !! j = Some (delay, a) -> a <> 0 ->
          Defensive.step (TimerFired j) w' =
          set_requests (requests w' ++ [(summary_url (userId w'), a)])
            (set_timers (delete j (timers w')) w')).
Proof.
  intros server w fuel Hid Hnr Hf. split; [|split].
  - intros o. subst o. unfold lone_fetch.
    destruct (lone_fetch_pending w Hid) as (Hp & _ & _ & Hc).
    destruct (drive_never_ready server (length (requests w)) (length (timers w))
                Hnr Defensive.MAX_SUMMARY_RETRIES 0 0 fuel
                (Defensive.step SummaryRequested w))
      as (H1 & H2 & H3 & H4 & H5 & H6 & H7 & H8 & H9); [reflexivity|lia|exact Hp|].
    rewrite Hc in H9. unfold summary_state. rewrite H6, H7.
    repeat split; [exact H1|exact H2|exact H3|exact H4|exact H5|].
    rewrite H9. unfold Defensive.MAX_SUMMARY_RETRIES. lia.
  - intros w' a o Ho d. subst d. split.
    + intros Ha. apply resumed_retry; assumption.
    + intros Ha. rewrite resumed_exhausted by assumption. cbn. auto.
  - intros w' j delay a. apply timer_fires_retry.
Qed.

Lemma not_ready_fetch_retries_then_fails_witness :
  userId (initial session) <> ""
  /\ (forall n : nat, not_ready ((fun _ => not_ready_response) n) = true)
  /\ 2 * Defensive.MAX_SUMMARY_RETRIES + 2 <= 8
  /\ calls (lone_fetch 8 (fun _ => not_ready_response) (initial session)) = 4.
Proof.
  assert (userId (initial session) <> "") as H1 by (vm_compute; discriminate).
  assert (forall n : nat, not_ready ((fun _ => not_ready_response) n) = true) as H2
    by (intros n; reflexivity).
  assert (2 * Defensive.MAX_SUMMARY_RETRIES + 2 <= 8) as H3 by (cbn; lia).
  split; [exact H1|split; [exact H2|split; [exact H3|]]].
  apply (not_ready_fetch_retries_then_fails (fun _ => not_ready_response)
           (initial session) 8 H1 H2 H3).
Defined.

(** C1. The loading flag does not stay set across the retries of every
    fetch. The user asks for the summary and every answer is the not-ready
    one; while the last retry of that fetch waits for its timer, the push
    signal [summary_ready] starts a second fetch. The last answer to the
    first fetch fails it and clears the loading flag; the first answer to the
    second fetch then schedules its retry, which is pending with the flag
    down and the error of the first fetch on display. *)
Theorem overlapping_fetch_retries_without_loading :
  let d := Defensive.run overlapping_retries open_world in
  not_ready not_ready_response = true
  /\ timers d = [(3000%N, 1)]
  /\ requests d = []
  /\ doctorSummaryLoading d = false
  /\ summary_state d = FailedWith "Doctor summary not yet available."
  /\ doctorSummaryLoading (Defensive.step (TimerFired 0) d) = false.
Proof. vm_compute. repeat split; reflexivity. Qed.




(** ** The transcript *)

(** C9. The transcript is append-only in both variants: whatever happens to
    the component (a frame, a lifecycle event of the transport, a send, a
    summary fetch and its retries), the transcript afterwards is the
    transcript before followed by the new entries, so every entry keeps its
    place, which is its place on display, and its content. *)
Theorem transcript_append_only :
  forall (evs : list Event) (w : World),
    (exists new, chatMessages (Defensive.run evs w) = chatMessages w ++ new)
    /\ (exists new, chatMessages (Baseline.run evs w) = chatMessages w ++ new)
    /\ (forall i e, chatMessages w !! i = Some e ->
          chatMessages (Defensive.run evs w) !! i = Some e
          /\ chatMessages (Baseline.run evs w) !! i = Some e).
Proof.
  intros evs w.
  split; [exact (run_grows_defensive evs w)|].
  split; [exact (run_grows_baseline evs w)|].
  intros i e Hi. split.
  - eapply prefix_lookup_Some; [exact Hi|exact (run_grows_defensive evs w)].
  - eapply prefix_lookup_Some; [exact Hi|exact (run_grows_baseline evs w)].
Qed.

(** ** Scenarios of the specification *)

(** Three not-ready answers, then a success: three retry notices and the
    notice of success, the summary ready, the loading flag down. *)
Example three_retries_then_ready :
  let o := lone_fetch 8
             (fun n => if Nat.ltb n 3 then not_ready_response else summary_response)
             (initial session) in
  settled o = true
  /\ waits o = [3000; 3000; 3000]%N
  /\ summary_state (final o) = Ready summary_document
  /\ length (chatMessages (final o)) = 4.
Proof. vm_compute. repeat split; reflexivity. Qed.

(** An [ai_response] frame with the text "hi": one AI entry, no usage. *)
Example ai_response_hi :
  chatMessages
    (exec (Defensive.socket_onmessage
             {| data := Json (JObj [("type", JStr "ai_response");
                                    ("payload", JObj [("text", JStr "hi")])]) |})
       (initial session))
  = [AiMsg (JStr "hi") JUndefined 0].
Proof. reflexivity. Qed.


(** * Further properties of the component *)

(** ** The open handler *)

(** X1. When the open event arrives while the [socket] variable refers to
    the open transport, the handler of either variant marks the component
    connected, appends the notice of the established connection and sends
    exactly one frame [{type: init_connection, userId}] with the session
    identity, without throwing. *)
Theorem open_sends_handshake :
  forall w : World,
    transport_open w = true ->
    exists i,
      socket w = Some i
      /\ exec Defensive.socket_onopen w =
         set_outbox (outbox w ++ [(i, init_connection (userId w))])
           (marked_connected w)
      /\ returns Defensive.socket_onopen w = true
      /\ exec Baseline.socket_onopen w = exec Defensive.socket_onopen w
      /\ returns Baseline.socket_onopen w = true.
Proof.
  intros w. destruct w as [? ? ? ? ? ? ? ? sk sks ? ? ? ?].
  unfold transport_open. cbn. intros H.
  destruct sk as [i|]; [|discriminate].
  destruct (sks !! i) as [ws|] eqn:Hi; [|discriminate].
  destruct (readyState ws) eqn:Hrs; try discriminate.
  exists i. split; [reflexivity|].
  unfold Defensive.socket_onopen, Baseline.socket_onopen, socket_send,
    socket_object, marked_connected, init_connection, established_notice.
  unfold_monad. repeat (cbn; rewrite ?Hi, ?Hrs). auto.
Qed.

Lemma open_sends_handshake_witness :
  transport_open open_world = true
  /\ exists i,
       socket open_world = Some i
       /\ exec Defensive.socket_onopen open_world =
          set_outbox (outbox open_world ++ [(i, init_connection (userId open_world))])
            (marked_connected open_world)
       /\ returns Defensive.socket_onopen open_world = true
       /\ exec Baseline.socket_onopen open_world = exec Defensive.socket_onopen open_world
       /\ returns Baseline.socket_onopen open_world = true.
Proof.
  split; [reflexivity|].
  apply (open_sends_handshake open_world). reflexivity.
Defined.

(** ** Reconnection on a refused send *)

(** X2. In the defensive variant a refused send appends its notice and then
    tries to reconnect when the connected flag is down or the socket is set
    and not open: with no connection open or in progress that leaves a fresh
    connecting transport; with a connection open or in progress the guard of
    [connectWebSocket] leaves the notice only. *)
Theorem refused_send_reconnects :
  forall w : World,
    well_formed w = true ->
    let d := exec Defensive.sendMessage w in
    (transport_busy w = false ->
     isConnected w = false \/ socket w <> None ->
     d = connecting (noticed w))
    /\ (transport_busy w = true ->
        whitespace_only (userInput w) = true \/ isConnected w = false
        \/ transport_open w = false ->
        d = noticed w).
Proof.
  intros w Hwf d. subst d.
  destruct w as [inp ? ? ? ? ? ? conn sk sks ? ? ? ?].
  unfold well_formed, transport_busy, transport_open, noticed, connecting in *.
  cbn in *.
  unfold Defensive.sendMessage, Defensive.connectWebSocket.
  unfold socket_is_set, socket_readyState, assign_handler, socket_object,
    new_WebSocket. unfold_monad. cbn. rewrite trim_empty.
  destruct sk as [i|]; cbn.
  - apply Nat.ltb_lt in Hwf. apply lookup_lt_is_Some_2 in Hwf as [ws Hi].
    rewrite Hi. split.
    + intros Hb _.
      destruct (whitespace_only inp), conn, (readyState ws) eqn:Hrs;
        try discriminate;
        repeat (cbn; rewrite ?Hi, ?Hrs, ?lookup_end, ?alter_end);
        reflexivity.
    + intros Hb H.
      destruct (whitespace_only inp), conn, (readyState ws) eqn:Hrs;
        try discriminate;
        repeat (cbn; rewrite ?Hi, ?Hrs, ?lookup_end, ?alter_end);
        try reflexivity;
        destruct H as [H|[H|H]]; discriminate.
  - split.
    + intros _ [->|H]; [|congruence].
      destruct (whitespace_only inp);
        repeat (cbn; rewrite ?lookup_end, ?alter_end); reflexivity.
    + discriminate.
Qed.

Lemma refused_send_reconnects_witness :
  well_formed (initial session) = true
  /\ (transport_busy (initial session) = false ->
      isConnected (initial session) = false \/ socket (initial session) <> None ->
      exec Defensive.sendMessage (initial session) =
      connecting (noticed (initial session))).
Proof.
  split; [reflexivity|].
  apply (refused_send_reconnects (initial session)). reflexivity.
Defined.

(** ** The message handler never throws *)

Lemma try_catch_returns {A} (body : M A) (handler : JsError -> M A) w :
  (forall e w', returns (handler e) w' = true) ->
  returns (try_catch body handler) w = true.
Proof.
  intros Hh. unfold returns, try_catch in *.
  destruct (body w) as [[a|e] w']; cbn; [reflexivity|apply Hh].
Qed.

(** X3. The message handler of either variant returns normally on every
    frame and in every state: whatever goes wrong while the frame is read
    and dispatched is caught. *)
Theorem onmessage_never_throws :
  forall (e : MessageEvent) (w : World),
    returns (Defensive.socket_onmessage e) w = true
    /\ returns (Baseline.socket_onmessage e) w = true.
Proof.
  intros e w. split.
  - unfold Defensive.socket_onmessage. apply try_catch_returns.
    intros err w'. reflexivity.
  - unfold Baseline.socket_onmessage. apply try_catch_returns.
    intros err w'. reflexivity.
Qed.


(** ** Close and error events *)

(** X4. A close event with a code other than 1006 takes the connected flag
    down and sets the status to "Disconnected (Code: n)" in both variants,
    and neither variant opens a new transport or sets a timer. The defensive
    variant appends the remote reason as an error notice, or "Connection
    closed." when the reason is empty, and sets the [socket] variable to
    null; the baseline appends "Connection closed. " followed by the reason
    and keeps the variable. *)
Theorem close_event_other_codes :
  forall (e : CloseEvent) (w : World),
    code e <> 1006%N ->
    let d := exec (Defensive.socket_onclose e) w in
    let b := exec (Baseline.socket_onclose e) w in
    (isConnected d = false
     /\ connectionStatus d = disconnected_status (code e)
     /\ chatMessages d =
        chatMessages w
        ++ [SystemMsg
              (JStr (if String.eqb (reason e) "" then "Connection closed."
                     else reason e)) error (now w)]
     /\ socket d = None
     /\ sockets d = sockets w /\ timers d = timers w)
    /\ (isConnected b = false
        /\ connectionStatus b = disconnected_status (code e)
        /\ chatMessages b =
           chatMessages w
           ++ [SystemMsg (JStr ("Connection closed. " +:+ reason e)) error (now w)]
        /\ socket b = socket w
        /\ sockets b = sockets w /\ timers b = timers w).
Proof.
  intros e w Hc d b. subst d b.
  unfold Defensive.socket_onclose, Baseline.socket_onclose, disconnected_status.
  unfold_monad. cbn.
  destruct (N.eqb_spec (code e) 1006) as [Heq|_]; [contradiction|].
  split; [split; [|split; [|split; [|split; [|split]]]]
         |split; [|split; [|split; [|split; [|split]]]]]; reflexivity.
Qed.

Lemma close_event_other_codes_witness :
  code {| code := 1000; reason := "" |} <> 1006%N
  /\ connectionStatus
       (exec (Defensive.socket_onclose {| code := 1000; reason := "" |}) open_world)
     = disconnected_status 1000.
Proof.
  assert (code {| code := 1000; reason := "" |} <> 1006%N) as H
    by (cbn; discriminate).
  split; [exact H|].
  destruct (close_event_other_codes {| code := 1000; reason := "" |} open_world H)
    as [(_ & Hs & _) _].
  exact Hs.
Defined.

(** X5. The error handler takes the connected flag down, sets the status
    ("Connection Error" in the defensive variant, "Error" in the baseline)
    and appends one error notice; it does not reconnect: the [socket]
    variable, the transports and the timers are as they were. *)
Theorem error_event_no_reconnect :
  forall w : World,
    let d := exec Defensive.socket_onerror w in
    let b := exec Baseline.socket_onerror w in
    (isConnected d = false /\ connectionStatus d = "Connection Error"
     /\ chatMessages d =
        chatMessages w
        ++ [SystemMsg
              (JStr "WebSocket connection error. Please check server and refresh.")
              error (now w)]
     /\ socket d = socket w /\ sockets d = sockets w /\ timers d = timers w)
    /\ (isConnected b = false /\ connectionStatus b = "Error"
        /\ chatMessages b =
           chatMessages w
           ++ [SystemMsg
                 (JStr "WebSocket connection error. Please try refreshing.")
                 error (now w)]
        /\ socket b = socket w /\ sockets b = sockets w /\ timers b = timers w).
Proof.
  intros w. cbn.
  split; [split; [|split; [|split; [|split; [|split]]]]
         |split; [|split; [|split; [|split; [|split]]]]]; reflexivity.
Qed.

(** ** The baseline fetch *)

(** X6. The baseline fetch does not retry: whatever the outcome of its one
    request, the rest of the call returns normally with the loading flag
    cleared, sets no timer, issues no request and appends no notice. *)
Theorem baseline_fetch_settles_at_once :
  forall (o : FetchOutcome) (w : World),
    let b := exec (Baseline.fetchDoctorSummary_resumed o) w in
    returns (Baseline.fetchDoctorSummary_resumed o) w = true
    /\ doctorSummaryLoading b = false
    /\ timers b = timers w /\ requests b = requests w
    /\ chatMessages b = chatMessages w.
Proof.
  intros o w b. subst b.
  unfold Baseline.fetchDoctorSummary_resumed, await_fetch, response_json, ToString.
  unfold_monad.
  destruct o as [err|r]; cbn; [auto|].
  destruct (ok r); cbn.
  - destruct (body r) as [msg|v]; cbn; auto.
  - destruct (body r) as [msg|v]; cbn; [auto|].
    destruct (nullish v); cbn; [auto|].
    destruct (truthy (own v "message")); cbn; [|auto].
    destruct (to_string (own v "message")); cbn; auto.
Qed.

(** ** The guard on the session identity *)

(** X7. Without a session identity no request is made. The defensive
    [fetchDoctorSummary] sets the error "User ID is not set. Cannot fetch
    summary." and appends it as an error notice; the baseline sets the error
    "User ID is not set." and appends nothing. Neither touches the loading
    flag or the summary. *)
Theorem fetch_without_identity :
  forall (attempt : nat) (w : World),
    userId w = "" ->
    exec (Defensive.fetchDoctorSummary attempt) w =
      set_chatMessages
        (chatMessages w
         ++ [SystemMsg (JStr "User ID is not set. Cannot fetch summary.")
               error (now w)])
        (set_doctorSummaryError "User ID is not set. Cannot fetch summary." w)
    /\ exec Baseline.fetchDoctorSummary w =
       set_doctorSummaryError "User ID is not set." w.
Proof.
  intros attempt w Hid.
  unfold Defensive.fetchDoctorSummary, Baseline.fetchDoctorSummary.
  unfold_monad. cbn. rewrite Hid. split; reflexivity.
Qed.

Lemma fetch_without_identity_witness :
  userId (initial "") = ""
  /\ requests (exec (Defensive.fetchDoctorSummary 0) (initial "")) = [].
Proof.
  split; [reflexivity|].
  destruct (fetch_without_identity 0 (initial "") eq_refl) as [H _].
  rewrite H. reflexivity.
Defined.


(** ** Unmounting *)

(** The transport object left by the teardown: no handler, and closing if
    the teardown called [close] on it. *)
Lemma detached_silent (d : World) (i : nat) (ws : WebSocket) (ev : Event) :
  sockets d !! i = Some ws -> detached ws = true -> transport_event i ev ->
  Defensive.step ev d = d /\ Baseline.step ev d = d.
Proof.
  intros Hi Hd Hev. unfold detached in Hd.
  apply andb_prop in Hd as [Hd Hc]. apply andb_prop in Hd as [Hd He].
  apply andb_prop in Hd as [Ho Hm].
  apply negb_true_iff in Ho, Hm, He, Hc.
  unfold Defensive.step, Baseline.step, exec.
  destruct Hev as [->|[[e ->]|[->|[e ->]]]];
    unfold Defensive.react, Baseline.react, dispatch; unfold_monad;
    cbn; rewrite Hi; cbn; rewrite ?Ho, ?Hm, ?He, ?Hc; split; reflexivity.
Qed.

(** X8. Unmounting the defensive component with a socket set clears the
    four handlers of the transport, closes it if it is open or connecting,
    and sets the [socket] variable to null; the chat, the status and the
    summary fetcher, with its pending timers and requests, are untouched.
    Afterwards no event of that transport changes the state, and unmounting
    again changes nothing. The baseline does the same to the transport but
    keeps the [socket] variable. *)
Theorem unmount_detaches :
  forall (w : World) (i : nat) (ws : WebSocket),
    socket w = Some i -> sockets w !! i = Some ws ->
    let d := Defensive.step Unmounted w in
    let b := Baseline.step Unmounted w in
    let left :=
      mkWebSocket (url ws)
        (if is_OPEN (readyState ws) || is_CONNECTING (readyState ws)
         then CLOSING else readyState ws) false false false false in
    (socket d = None
     /\ sockets d !! i = Some left
     /\ length (sockets d) = length (sockets w)
     /\ (forall j, j <> i -> sockets d !! j = sockets w !! j)
     /\ same_session w d
     /\ (forall ev, transport_event i ev -> Defensive.step ev d = d)
     /\ Defensive.step Unmounted d = d)
    /\ (socket b = Some i
        /\ sockets b = sockets d
        /\ same_session w b
        /\ (forall ev, transport_event i ev -> Baseline.step ev b = b)).
Proof.
  intros w i ws Hs Hi d b left.
  assert (sockets d !! i = Some left /\ socket d = None
          /\ length (sockets d) = length (sockets w)
          /\ (forall j, j <> i -> sockets d !! j = sockets w !! j)
          /\ same_session w d
          /\ socket b = Some i /\ sockets b = sockets d /\ same_session w b)
    as (Hdi & Hdn & Hlen & Hne & Hsd & Hbs & Hbd & Hsb).
  { subst d b left.
    destruct w as [? ? ? ? ? ? ? ? sk sks ? ? ? ?]. cbn in Hs, Hi. subst sk.
    unfold Defensive.step, Baseline.step, Defensive.react, Baseline.react,
      Defensive.onUnmounted, Baseline.onUnmounted, same_session.
    unfold socket_is_set, socket_readyState, socket_close, assign_handler,
      socket_object. unfold_monad.
    repeat (cbn; rewrite ?list_lookup_alter_eq, ?Hi).
    destruct (readyState ws) eqn:Hrs;
      repeat (cbn; rewrite ?list_lookup_alter_eq, ?Hi, ?Hrs);
      unfold ws_close, with_onclose, with_onerror, with_onmessage, with_onopen;
      cbn; rewrite ?Hrs; cbn;
      (split; [reflexivity|]); (split; [reflexivity|]);
      (split; [rewrite ?length_alter; reflexivity|]);
      (split; [intros j Hj; rewrite ?list_lookup_alter_ne by congruence;
               reflexivity|]);
      (split; [repeat split|]); (split; [reflexivity|]);
      (split; [try reflexivity|repeat split]).
    all: apply list_eq; intros j; destruct (decide (j = i)) as [->|Hj];
      [rewrite ?list_lookup_alter_eq, ?Hi; cbn; rewrite ?Hrs; reflexivity
      |rewrite ?list_lookup_alter_ne by congruence; reflexivity]. }
  assert (detached left = true) as Hdet by reflexivity.
  split; [|split; [exact Hbs|split; [exact Hbd|split; [exact Hsb|]]]].
  - split; [exact Hdn|]. split; [exact Hdi|]. split; [exact Hlen|].
    split; [exact Hne|]. split; [exact Hsd|]. split.
    + intros ev Hev. apply (detached_silent d i left ev Hdi Hdet Hev).
    + destruct d as [? ? ? ? ? ? ? ? sk sks ? ? ? ?]. cbn in Hdn. subst sk.
      reflexivity.
  - intros ev Hev. rewrite <- Hbd in Hdi.
    apply (detached_silent b i left ev Hdi Hdet Hev).
Qed.

Lemma unmount_detaches_witness :
  socket open_world = Some 0
  /\ sockets open_world !! 0 = Some (mkWebSocket "ws://localhost:3000" OPEN true true true true)
  /\ socket (Defensive.step Unmounted open_world) = None.
Proof.
  assert (socket open_world = Some 0) as H1 by reflexivity.
  assert (sockets open_world !! 0
          = Some (mkWebSocket "ws://localhost:3000" OPEN true true true true))
    as H2 by reflexivity.
  split; [exact H1|split; [exact H2|]].
  destruct (unmount_detaches open_world 0 _ H1 H2) as [(H & _) _].
  exact H.
Defined.

(** ** Timers *)

Lemma same_timers_refl w : same_timers w w.
Proof. reflexivity. Qed.

Lemma same_timers_trans w1 w2 w3 :
  same_timers w1 w2 -> same_timers w2 w3 -> same_timers w1 w3.
Proof. unfold same_timers. congruence. Qed.

Ltac timers_side := first [exact same_timers_refl | exact same_timers_trans].
Ltac timers_leaf := unfold same_timers; reflexivity.

(** X9. The baseline variant never sets a timer: no event of the component
    changes the timers, so after any run from the component as created there
    is none, and no summary request is ever repeated on its own. *)
Theorem baseline_sets_no_timer :
  forall (evs : list Event) (ev : Event) (w : World) (uid : string),
    timers (Baseline.step ev w) = timers w
    /\ timers (Baseline.run evs (initial uid)) = [].
Proof.
  assert (forall ev, preserves same_timers (Baseline.react ev)) as Hstep
    by (intros ev; destruct ev; preserve timers_side timers_leaf).
  intros evs ev w uid. split; [apply (Hstep ev w)|].
  change [] with (timers (initial uid)) at 1.
  generalize (initial uid). induction evs as [|e evs IH]; intros w0; cbn;
    [reflexivity|].
  fold (Baseline.run evs (Baseline.step e w0)). rewrite IH. apply (Hstep e w0).
Qed.

(** ** Reconnection *)

(** X10. The defensive variant opens a transport on mount and on a refused
    send only: no other event of the component, in particular no close and
    no error event, creates a WebSocket object. *)
Theorem defensive_no_automatic_reconnect :
  forall (ev : Event) (w : World),
    ev <> Mounted -> ev <> SendRequested ->
    length (sockets (Defensive.step ev w)) = length (sockets w).
Proof.
  intros ev w Hm Hs.
  assert (preserves same_transports (Defensive.react ev)) as H
    by (destruct ev; [congruence|..|]; try congruence;
        preserve transports_side transports_leaf).
  apply (H w).
Qed.

Lemma defensive_no_automatic_reconnect_witness :
  Closed 0 abnormal_close <> Mounted
  /\ Closed 0 abnormal_close <> SendRequested
  /\ length (sockets (Defensive.step (Closed 0 abnormal_close) open_world))
     = length (sockets open_world).
Proof.
  assert (Closed 0 abnormal_close <> Mounted) as H1 by discriminate.
  assert (Closed 0 abnormal_close <> SendRequested) as H2 by discriminate.
  split; [exact H1|split; [exact H2|]].
  apply (defensive_no_automatic_reconnect (Closed 0 abnormal_close) open_world H1 H2).
Defined.
